(** * dcf-calc: the scenario valuation engine, the request normaliser and the
    snapshot provider, embedded from [backend/valuation_models.py],
    [backend/valuation_service.py] and [backend/data_provider.py].

    Python [float]s are read as exact rationals ([Q]); the results below are
    statements about the arithmetic the code writes down, not about binary
    rounding.  Numeric equalities are therefore stated with [==] on [Q].
    Which operations raise is kept: [**] on floats and [float] on an integer
    raise [OverflowError] when the result leaves the float range, whose
    bound is a parameter ([FloatRange]); [*] and [/] overflow to infinity
    without raising, and only division by zero raises. *)

From Stdlib Require Import QArith Qabs Qround Lqa Lia ZArith Ascii String.
From stdpp Require Import gmap strings list pretty.

Set Warnings "-register-all".
Local Open Scope Q_scope.

(** ** Python runtime fragments used by the sources *)

Module Py.

(** The exceptions the modelled code can raise. *)
Inductive exn : Type :=
| ValueError (msg : string)
| ZeroDivisionError (msg : string)
| TypeError (msg : string)
| OverflowError (msg : string)
| IndexError (msg : string)
| UpstreamError (msg : string).

(** A computation either raises or returns. *)
Inductive result (A : Type) : Type :=
| Raise (e : exn)
| Return (a : A).
Arguments Raise {A} e.
Arguments Return {A} a.

Definition bind {A B} (c : result A) (k : A -> result B) : result B :=
  match c with
  | Raise e => Raise e
  | Return a => k a
  end.

(** [for x in xs: acc = body(acc, x)], stopping at the first exception. *)
Fixpoint for_each {A S} (body : S -> A -> result S) (xs : list A) (acc : S)
  : result S :=
  match xs with
  | [] => Return acc
  | x :: rest => bind (body acc x) (for_each body rest)
  end.

(** A list comprehension whose element expression may raise. *)
Fixpoint comprehension {A B} (f : A -> result B) (xs : list A)
  : result (list B) :=
  match xs with
  | [] => Return []
  | x :: rest =>
      bind (f x) (fun y =>
      bind (comprehension f rest) (fun ys => Return (y :: ys)))
  end.

Definition is_raise {A} (c : result A) : bool :=
  match c with Raise _ => true | Return _ => false end.

(** Comparisons on floats, as booleans. *)
Definition ltb (x y : Q) : bool := negb (Qle_bool y x).
Definition leb (x y : Q) : bool := Qle_bool x y.
Definition gtb (x y : Q) : bool := ltb y x.

(** Truthiness of a number: anything but zero. *)
Definition truthy (x : Q) : bool := negb (Qeq_bool x 0).

(** [max(a, b)] and [min(a, b)] return the first argument on ties. *)
Definition max (a b : Q) : Q := if gtb b a then b else a.
Definition min (a b : Q) : Q := if ltb b a then b else a.

(** [a / b] on floats. *)
Definition div (a b : Q) : result Q :=
  if Qeq_bool b 0 then Raise (ZeroDivisionError "float division by zero")
  else Return (a / b).

(** The exact value of [x ** n] for a non-negative integer exponent. *)
Fixpoint power (x : Q) (n : nat) : Q :=
  match n with
  | O => 1
  | S n' => x * power x n'
  end.

(** The range of finite floats: [float_overflow] is the least magnitude
    that rounds beyond the largest finite float.  A built-in that raises
    [OverflowError] does so when the exact result reaches it. *)
Class FloatRange : Type := {
  float_overflow : Q;
  float_overflow_gt_one : 1 < float_overflow
}.

Definition in_float_range `{FloatRange} (x : Q) : bool :=
  ltb (Qabs x) float_overflow.

Definition overflow_text : string := "(34, 'Numerical result out of range')".

(** [x ** n] on a float: [OverflowError] when the result leaves the float
    range. *)
Definition pow `{FloatRange} (x : Q) (n : nat) : result Q :=
  if in_float_range (power x n) then Return (power x n)
  else Raise (OverflowError overflow_text).

(** [sum(xs)]: left to right from 0. *)
Definition sum (xs : list Q) : Q := fold_left Qplus xs 0.

(** [len(xs)] as a number. *)
Definition len {A} (xs : list A) : Q := inject_Z (Z.of_nat (length xs)).

(** [xs[-1]]. *)
Definition last_item (xs : list Q) : result Q :=
  match last xs with
  | Some x => Return x
  | None => Raise (IndexError "list index out of range")
  end.

(** [list(dict.fromkeys(xs))]: drop repeats, keep first occurrences in
    order. *)
Fixpoint fromkeys_acc (seen : list string) (xs : list string) : list string :=
  match xs with
  | [] => []
  | x :: rest =>
      if bool_decide (x ∈ seen) then fromkeys_acc seen rest
      else x :: fromkeys_acc (x :: seen) rest
  end.
Definition fromkeys (xs : list string) : list string := fromkeys_acc [] xs.

(** The two format specifications the warnings use, [:.0%] and [:.1f].
    They are Python built-ins; the engine is parametric in them. *)
Class FloatFormat : Type := {
  format_pct0 : Q -> string;
  format_f1 : Q -> string
}.

(** [float(s)] on a string, another built-in: [None] stands for the
    [ValueError] it raises on text that is not a number. *)
Class FloatParse : Type := {
  float_of_string : string -> option Q
}.

(** [s.strip()] and [s.upper()], on ASCII text. *)
Definition is_space (c : ascii) : bool :=
  let n := nat_of_ascii c in
  bool_decide (n = 32 \/ (9 <= n <= 13) \/ (28 <= n <= 31))%nat.

Fixpoint lstrip (cs : list ascii) : list ascii :=
  match cs with
  | [] => []
  | c :: rest => if is_space c then lstrip rest else cs
  end.

Definition strip (s : string) : string :=
  string_of_list_ascii
    (rev (lstrip (rev (lstrip (list_ascii_of_string s))))).

Definition upper_char (c : ascii) : ascii :=
  let n := nat_of_ascii c in
  if bool_decide (97 <= n <= 122)%nat then ascii_of_nat (n - 32) else c.

Definition upper (s : string) : string :=
  string_of_list_ascii (map upper_char (list_ascii_of_string s)).

End Py.

#[global] Instance result_ret : MRet Py.result := @Py.Return.
#[global] Instance result_bind : MBind Py.result :=
  fun A B k c => Py.bind c k.

(** ** backend/valuation_models.py *)

Module valuation_models.
Import Py.

Module ScenarioProfile.
Record t : Type := {
  name : string;
  growth_rates : list Q;
  terminal_multiple : Q;
  probability : Q
}.
(** The dataclass default for [probability]. *)
Definition default_probability : Q := 33 # 100.
End ScenarioProfile.

Module ScenarioValuation.
Record t : Type := {
  name : string;
  intrinsic_value : Q;
  buy_price : Q;
  upside : Q;
  downside : Q;
  margin_of_safety_pct : Q;
  effective_growth_rates : list Q;
  terminal_multiple : Q;
  cashflows : list Q;
  discounted_cashflows : list Q;
  terminal_value : Q;
  discounted_terminal_value : Q;
  warnings : list string
}.
End ScenarioValuation.

Module AggregateValuation.
Record t : Type := {
  scenario_results : list ScenarioValuation.t;
  weighted_intrinsic_value : Q;
  margin_of_safety_buy_price : Q;
  current_price : Q;
  metadata : gmap string Q;
  warnings : list string
}.
End AggregateValuation.

(** [enumerate(xs, start)]. *)
Fixpoint enumerate {A} (start : nat) (xs : list A) : list (nat * A) :=
  match xs with
  | [] => []
  | x :: rest => (start, x) :: enumerate (S start) rest
  end.

Module DiscountedCashFlowModel.

Record t : Type := {
  discount_rate : Q;
  margin_of_safety : Q
}.

Definition __init__ (discount_rate margin_of_safety : Q) : t :=
  {| discount_rate := max discount_rate 0;
     margin_of_safety := max (min margin_of_safety (99 # 100)) 0 |}.

(** The variables the projection loop of [_evaluate_scenario] updates. *)
Record loop_vars : Type := {
  value : Q;
  cashflows : list Q;
  discounted : list Q;
  warnings : list string
}.

Section WithFormat.
Context `{FloatFormat} `{FloatRange}.

(** One iteration of [for idx, rate in enumerate(growth_rates, 1)]. *)
Definition loop_body (self : t) (scenario_name : string)
    (vars : loop_vars) (item : nat * Q) : result loop_vars :=
  let '(idx, rate) := item in
  let value := value vars * (1 + rate) in
  let cashflows := cashflows vars ++ [value] in
  factor ← pow (1 + discount_rate self) idx;
  discounted_value ← div value factor;
  let discounted := discounted vars ++ [discounted_value] in
  let warnings := warnings vars in
  let warnings :=
    if gtb rate (15 # 100)
    then warnings ++ [scenario_name +:+ ": Growth rate " +:+
                      format_pct0 rate +:+ " exceeds conservative range."]
    else warnings in
  let warnings :=
    if ltb rate (- (1 # 10))
    then warnings ++ [scenario_name +:+ ": Growth rate " +:+
                      format_pct0 rate +:+ " implies steep decline."]
    else warnings in
  mret {| value := value; cashflows := cashflows;
          discounted := discounted; warnings := warnings |}.

Definition _evaluate_scenario (self : t)
    (base_cashflow_per_share current_price : Q)
    (scenario : ScenarioProfile.t) : result ScenarioValuation.t :=
  let rates := ScenarioProfile.growth_rates scenario in
  let years := length rates in
  if bool_decide (years = 0%nat)
  then Raise (ValueError
         "Growth rates are required for at least one forecast year.")
  else
    vars ← for_each (loop_body self (ScenarioProfile.name scenario))
             (enumerate 1 rates)
             {| value := base_cashflow_per_share; cashflows := [];
                discounted := []; warnings := [] |};
    last_cashflow ← last_item (cashflows vars);
    let terminal_value :=
      last_cashflow * ScenarioProfile.terminal_multiple scenario in
    factor ← pow (1 + discount_rate self) years;
    discounted_terminal ← div terminal_value factor;
    let intrinsic_value := sum (discounted vars) + discounted_terminal in
    let buy_price := intrinsic_value * (1 - margin_of_safety self) in
    upside ← (if truthy current_price
              then q ← div intrinsic_value current_price; mret (q - 1)
              else mret 0);
    downside ← (if truthy current_price
                then q ← div buy_price current_price; mret (q - 1)
                else mret 0);
    let warnings := warnings vars in
    let warnings :=
      if gtb (ScenarioProfile.terminal_multiple scenario) 20
      then warnings ++ [ScenarioProfile.name scenario +:+
             ": Terminal multiple " +:+
             format_f1 (ScenarioProfile.terminal_multiple scenario) +:+
             " is aggressive."]
      else warnings in
    let warnings :=
      if ltb (ScenarioProfile.terminal_multiple scenario) 5
      then warnings ++ [ScenarioProfile.name scenario +:+
             ": Terminal multiple " +:+
             format_f1 (ScenarioProfile.terminal_multiple scenario) +:+
             " is unusually low."]
      else warnings in
    mret {|
      ScenarioValuation.name := ScenarioProfile.name scenario;
      ScenarioValuation.intrinsic_value := intrinsic_value;
      ScenarioValuation.buy_price := buy_price;
      ScenarioValuation.upside := upside;
      ScenarioValuation.downside := downside;
      ScenarioValuation.margin_of_safety_pct := margin_of_safety self;
      ScenarioValuation.effective_growth_rates := rates;
      ScenarioValuation.terminal_multiple :=
        ScenarioProfile.terminal_multiple scenario;
      ScenarioValuation.cashflows := cashflows vars;
      ScenarioValuation.discounted_cashflows := discounted vars;
      ScenarioValuation.terminal_value := terminal_value;
      ScenarioValuation.discounted_terminal_value := discounted_terminal;
      ScenarioValuation.warnings := fromkeys warnings
    |}.

(** [per_share = base_cashflow / shares_outstanding
                 if shares_outstanding else base_cashflow]. *)
Definition per_share_base (base_cashflow shares_outstanding : Q)
  : result Q :=
  if truthy shares_outstanding
  then div base_cashflow shares_outstanding
  else mret base_cashflow.

(** The scenario loop of [evaluate]: results and warnings so far. *)
Definition collect (self : t) (per_share current_price : Q)
    (acc : list ScenarioValuation.t * list string)
    (scenario : ScenarioProfile.t)
  : result (list ScenarioValuation.t * list string) :=
  valuation ← _evaluate_scenario self per_share current_price scenario;
  mret (acc.1 ++ [valuation],
        acc.2 ++ ScenarioValuation.warnings valuation).

(** The probability weights [evaluate] forms from the scenarios. *)
Definition probabilities (scenarios : list ScenarioProfile.t)
  : result (list Q) :=
  let total_probability :=
    sum (map ScenarioProfile.probability scenarios) in
  if leb total_probability 0
  then comprehension (fun _ => div 1 (len scenarios)) scenarios
  else comprehension
         (fun s => div (ScenarioProfile.probability s) total_probability)
         scenarios.

Definition weighted_sum (results : list ScenarioValuation.t)
    (probabilities : list Q) : Q :=
  sum (map (fun vp => ScenarioValuation.intrinsic_value vp.1 * vp.2)
           (zip results probabilities)).

Definition evaluate (self : t)
    (base_cashflow current_price shares_outstanding : Q)
    (scenarios : list ScenarioProfile.t) : result AggregateValuation.t :=
  per_share ← per_share_base base_cashflow shares_outstanding;
  collected ← for_each (collect self per_share current_price)
                scenarios ([], []);
  let results := collected.1 in
  let warnings := collected.2 in
  probabilities ← probabilities scenarios;
  let weighted_intrinsic := weighted_sum results probabilities in
  let buy_price := weighted_intrinsic * (1 - margin_of_safety self) in
  mret {|
    AggregateValuation.scenario_results := results;
    AggregateValuation.weighted_intrinsic_value := weighted_intrinsic;
    AggregateValuation.margin_of_safety_buy_price := buy_price;
    AggregateValuation.current_price := current_price;
    AggregateValuation.metadata :=
      <["discount_rate" := discount_rate self]>
        (<["margin_of_safety" := margin_of_safety self]> ∅);
    AggregateValuation.warnings := fromkeys warnings
  |}.

End WithFormat.
End DiscountedCashFlowModel.

(** [class DividendDiscountModel(DiscountedCashFlowModel): pass] -- the
    subclass adds no attribute and overrides no method, so every name
    resolves to the parent's. *)
Module DividendDiscountModel.
Definition t : Type := DiscountedCashFlowModel.t.
Definition __init__ := DiscountedCashFlowModel.__init__.
Definition _evaluate_scenario `{FloatFormat} `{FloatRange} :=
  DiscountedCashFlowModel._evaluate_scenario.
Definition evaluate `{FloatFormat} `{FloatRange} :=
  DiscountedCashFlowModel.evaluate.
End DividendDiscountModel.

End valuation_models.

(** ** backend/data_provider.py *)

Module data_provider.
Import Py.

(** The fragment of [pandas.DataFrame] the provider touches: period
    columns, and rows keyed by a line-item label (taken duplicate-free, as
    statement tables are).  A cell is [None] where pandas holds NaN. *)
Module DataFrame.
Record t : Type := {
  columns : list string;
  rows : list (string * list (option Q))
}.

(** [pd.DataFrame()]. *)
Definition new : t := {| columns := []; rows := [] |}.

(** [df.empty]: some axis has length 0. *)
Definition empty (df : t) : bool :=
  match columns df, rows df with
  | [], _ | _, [] => true
  | _, _ => false
  end.

Definition index (df : t) : list string := map fst (rows df).

(** [label in df.index]. *)
Definition contains (label : string) (df : t) : bool :=
  bool_decide (label ∈ index df).

(** [df.loc[label]], for a label of the index. *)
Fixpoint loc_rows (label : string) (rs : list (string * list (option Q)))
  : option (list (option Q)) :=
  match rs with
  | [] => None
  | (l, cells) :: rest =>
      if bool_decide (l = label) then Some cells else loc_rows label rest
  end.
Definition loc (label : string) (df : t) : option (list (option Q)) :=
  loc_rows label (rows df).

(** [series.fillna(v).tolist()]. *)
Definition fillna_series (v : Q) (cells : list (option Q)) : list Q :=
  map (default v) cells.

(** [df.fillna(v)]. *)
Definition fillna (v : Q) (df : t) : t :=
  {| columns := columns df;
     rows := map (fun r => (r.1, map (fun c => Some (default v c)) r.2))
                 (rows df) |}.

(** Every row has one cell per period column. *)
Definition well_formed (df : t) : Prop :=
  Forall (fun r => length r.2 = length (columns df)) (rows df).
End DataFrame.

(** A metadata entry: the provider stores numbers and one currency code. *)
Inductive meta : Type :=
| Num (x : Q)
| Text (s : string).

Module FinancialSnapshot.
Record t : Type := {
  ticker : string;
  currency : string;
  financial_currency : string;
  shares_outstanding : Q;
  current_price : Q;
  fcf_history : list Q;
  owner_earnings_history : list Q;
  dividends_per_share_ttm : Q;
  metadata : gmap string meta;
  warnings : list string
}.
End FinancialSnapshot.

(** What one [yf.Ticker(symbol)] yields: the three statement tables, and
    the scalars [_resolve_price], [_resolve_shares], [_resolve_currency],
    [_resolve_financial_currency], [_resolve_fx_rate] and
    [_compute_dividend_ttm] read off the quote, info, history, FX and
    dividend objects of the upstream library. *)
Module Ticker.
Record t : Type := {
  cashflow : option DataFrame.t;
  financials : option DataFrame.t;
  balance_sheet : option DataFrame.t;
  price : Q;
  shares : Q;
  currency : string;
  financial_currency : string;
  fx_rate : Q;
  dividend_ttm : Q
}.
End Ticker.

(** The environment of a provider: the wall clock as the sequence of its
    successive readings, and the upstream service with the log of the
    ticker symbols [get_snapshot] opened with [yf.Ticker(normalized)].  The
    currency-pair lookups inside [_resolve_fx_rate] are part of what a
    [Ticker.t] yields and are not in the log. *)
Module World.
Record t : Type := {
  clock : nat -> Q;
  reads : nat;
  upstream : string -> nat -> result Ticker.t;
  requests : list string
}.

(** [time.time()]. *)
Definition time (w : t) : Q * t :=
  (clock w (reads w),
   {| clock := clock w; reads := S (reads w);
      upstream := upstream w; requests := requests w |}).

(** [yf.Ticker(symbol)] and the reads of its attributes. *)
Definition fetch (symbol : string) (w : t) : result Ticker.t * t :=
  (upstream w symbol (length (requests w)),
   {| clock := clock w; reads := reads w;
      upstream := upstream w; requests := requests w ++ [symbol] |}).
End World.

Module YahooFinanceDataProvider.

(** A cache entry, [{"payload": snapshot, "timestamp": t}]. *)
Record entry : Type := {
  payload : FinancialSnapshot.t;
  timestamp : Q
}.

Record t : Type := {
  cache_ttl : Q;
  _cache : gmap string entry
}.

Definition __init__ (cache_ttl : Q) : t :=
  {| cache_ttl := cache_ttl; _cache := ∅ |}.
Definition default_cache_ttl : Q := 1800.

Definition _safe_df (df : option DataFrame.t) : DataFrame.t :=
  match df with
  | None => DataFrame.new
  | Some df => DataFrame.fillna 0 df
  end.

Definition _scale_series (series : list Q) (factor : Q) : list Q :=
  if Qeq_bool factor 1 || bool_decide (series = []) then series
  else map (fun value => value * factor) series.

Fixpoint _row_values_loop (df : DataFrame.t) (row_labels : list string)
  : list Q * bool :=
  match row_labels with
  | [] => (map (fun _ => 0) (DataFrame.columns df), false)
  | label :: rest =>
      match DataFrame.loc label df with
      | Some series => (DataFrame.fillna_series 0 series, true)
      | None => _row_values_loop df rest
      end
  end.

Definition _row_values (df : DataFrame.t) (row_labels : list string)
  : list Q * bool :=
  if DataFrame.empty df then ([], false)
  else _row_values_loop df row_labels.

Definition operating_labels : list string :=
  ["Operating Cash Flow"; "Total Cash From Operating Activities";
   "Cash Flow From Continuing Operating Activities"]%string.

Definition capex_labels : list string :=
  ["Capital Expenditure"; "Capital Expenditures";
   "Net PPE Purchase And Sale"]%string.

Definition _compute_fcf_series (cashflow : DataFrame.t) : list Q :=
  if DataFrame.empty cashflow then []
  else
    let '(free_cash_flow, found) :=
      _row_values cashflow ["Free Cash Flow"%string] in
    if found && existsb (fun value => gtb (Qabs value) (1 # 1000000000))
                        free_cash_flow
    then free_cash_flow
    else
      let '(operating, _) := _row_values cashflow operating_labels in
      let '(capex, _) := _row_values cashflow capex_labels in
      map (fun oc => oc.1 - oc.2) (zip operating capex).

Definition net_income_labels : list string :=
  ["Net Income"; "Net Income Common Stockholders";
   "Net Income Including Noncontrolling Interests"]%string.

Definition _compute_owner_earnings_series
    (financials cashflow : DataFrame.t) : list Q :=
  if DataFrame.empty financials || DataFrame.empty cashflow then []
  else
    let '(net_income, _) := _row_values financials net_income_labels in
    let '(depreciation, dep_found) :=
      _row_values financials
        ["Depreciation & Amortization"; "Depreciation And Amortization";
         "Depreciation Amortization Depletion";
         "Reconciled Depreciation"]%string in
    let depreciation :=
      if dep_found then depreciation
      else (_row_values cashflow
              ["Depreciation & Amortization";
               "Depreciation And Amortization";
               "Depreciation Amortization Depletion"]%string).1 in
    let '(capex, _) := _row_values cashflow capex_labels in
    map (fun x => x.1.1 + x.1.2 - x.2)
        (zip (zip net_income depreciation) capex).

Fixpoint _extract_latest_loop (df : DataFrame.t)
    (row_labels : list string) : result Q :=
  match row_labels with
  | [] => mret 0
  | label :: rest =>
      match DataFrame.loc label df with
      | Some series =>
          match DataFrame.fillna_series 0 series with
          | x :: _ => mret x
          | [] => Raise (IndexError
                    "single positional indexer is out-of-bounds")
          end
      | None => _extract_latest_loop df rest
      end
  end.

Definition _extract_latest (df : DataFrame.t) (row_labels : list string)
  : result Q :=
  if DataFrame.empty df then mret 0
  else _extract_latest_loop df row_labels.

(** [a or b] on two optional numbers: [a] when it is present and not zero,
    else [b]. *)
Definition or_else (a b : option Q) : option Q :=
  match a with
  | Some x => if truthy x then Some x else b
  | None => b
  end.

(** One round of the loop of [_resolve_fx_rate]: the quote of [pair],
    inverted when asked; [None] when the loop moves on, which includes any
    exception raised inside the [try].  [quotes pair] stands for the
    [fast_info] mapping of [yf.Ticker(pair)]. *)
Definition fx_attempt (quotes : string -> result (gmap string Q))
    (pair : string) (invert : bool) : option Q :=
  match quotes pair with
  | Raise _ => None
  | Return fast_info =>
      match or_else (fast_info !! "lastPrice"%string)
                    (fast_info !! "last_price"%string) with
      | Some price =>
          if truthy price && gtb price 0
          then if invert
               then match div 1 price with
                    | Return rate => Some rate
                    | Raise _ => None
                    end
               else Some price
          else None
      | None => None
      end
  end.

Definition _resolve_fx_rate (quotes : string -> result (gmap string Q))
    (financial_currency market_currency : string) : Q :=
  let financial_currency := upper financial_currency in
  let market_currency := upper market_currency in
  if bool_decide (financial_currency = ""%string)
     || bool_decide (market_currency = ""%string)
     || bool_decide (financial_currency = market_currency)
  then 1
  else
    let pair_direct := financial_currency +:+ market_currency +:+ "=X" in
    let pair_inverse := market_currency +:+ financial_currency +:+ "=X" in
    match fx_attempt quotes pair_direct false with
    | Some rate => rate
    | None =>
        match fx_attempt quotes pair_inverse true with
        | Some rate => rate
        | None => 1
        end
    end.

(** The miss path of [get_snapshot] from the tables on: normalise the
    statements, fill the metadata, collect the warnings. *)
Definition build_snapshot (normalized : string) (yf_ticker : Ticker.t)
  : result FinancialSnapshot.t :=
  let cashflow := _safe_df (Ticker.cashflow yf_ticker) in
  let financials := _safe_df (Ticker.financials yf_ticker) in
  let price := Ticker.price yf_ticker in
  let shares_outstanding := Ticker.shares yf_ticker in
  let currency := Ticker.currency yf_ticker in
  let financial_currency := Ticker.financial_currency yf_ticker in
  let fx_rate := Ticker.fx_rate yf_ticker in
  let fcf_history :=
    _scale_series (_compute_fcf_series cashflow) fx_rate in
  let owner_earnings_history :=
    _scale_series (_compute_owner_earnings_series financials cashflow)
                  fx_rate in
  let dividends_per_share_ttm := Ticker.dividend_ttm yf_ticker * fx_rate in
  revenue ← _extract_latest financials
              ["Total Revenue"; "Operating Revenue"]%string;
  net_income ← _extract_latest financials net_income_labels;
  operating ← _extract_latest cashflow
                ["Operating Cash Flow";
                 "Total Cash From Operating Activities"]%string;
  capex ← _extract_latest cashflow capex_labels;
  let metadata : gmap string meta :=
    <["financial_currency" := Text financial_currency]>
    (<["fx_rate" := Num fx_rate]>
    (<["latest_capex" := Num (capex * fx_rate)]>
    (<["latest_operating_cash_flow" := Num (operating * fx_rate)]>
    (<["latest_net_income" := Num (net_income * fx_rate)]>
    (<["latest_revenue" := Num (revenue * fx_rate)]> ∅))))) in
  let warnings : list string := [] in
  let warnings :=
    if leb shares_outstanding 0
    then warnings ++ ["Unable to determine shares outstanding. Intrinsic value per share may be inaccurate."%string]
    else warnings in
  let warnings :=
    if bool_decide (fcf_history = [])
    then warnings ++ ["Missing cash flow data. DCF mode will rely on user assumptions only."%string]
    else warnings in
  let warnings :=
    if leb dividends_per_share_ttm 0
    then warnings ++ ["No trailing dividends detected. DDM valuations may not be meaningful."%string]
    else warnings in
  mret {|
    FinancialSnapshot.ticker := normalized;
    FinancialSnapshot.currency := currency;
    FinancialSnapshot.financial_currency := financial_currency;
    FinancialSnapshot.shares_outstanding := shares_outstanding;
    FinancialSnapshot.current_price := price;
    FinancialSnapshot.fcf_history := fcf_history;
    FinancialSnapshot.owner_earnings_history := owner_earnings_history;
    FinancialSnapshot.dividends_per_share_ttm := dividends_per_share_ttm;
    FinancialSnapshot.metadata := metadata;
    FinancialSnapshot.warnings := warnings
  |}.

(** The cache test of [get_snapshot]:
    [cached and time.time() - cached["timestamp"] < self.cache_ttl].
    The clock is read only when an entry exists. *)
Definition cache_lookup (self : t) (normalized : string) (w : World.t)
  : option FinancialSnapshot.t * World.t :=
  match _cache self !! normalized with
  | None => (None, w)
  | Some cached =>
      let '(now, w) := World.time w in
      if ltb (now - timestamp cached) (cache_ttl self)
      then (Some (payload cached), w)
      else (None, w)
  end.

(** [get_snapshot]: the outcome, the provider afterwards, the world
    afterwards. *)
Definition get_snapshot (self : t) (ticker : string) (w : World.t)
  : result FinancialSnapshot.t * t * World.t :=
  let normalized := upper (strip ticker) in
  if bool_decide (normalized = ""%string)
  then (Raise (ValueError "Ticker cannot be empty."), self, w)
  else
    let '(cached, w) := cache_lookup self normalized w in
    match cached with
    | Some snapshot => (Return snapshot, self, w)
    | None =>
        let '(yf_ticker, w) := World.fetch normalized w in
        match yf_ticker ≫= build_snapshot normalized with
        | Raise e => (Raise e, self, w)
        | Return snapshot =>
            let '(now, w) := World.time w in
            (Return snapshot,
             {| cache_ttl := cache_ttl self;
                _cache := <[normalized :=
                             {| payload := snapshot; timestamp := now |}]>
                          (_cache self) |},
             w)
        end
    end.

End YahooFinanceDataProvider.
End data_provider.

(** ** backend/valuation_service.py *)

Module valuation_service.
Import Py valuation_models data_provider.

(** The values a decoded JSON payload is made of. *)
Inductive value : Type :=
| VNone
| VBool (b : bool)
| VInt (n : Z)
| VFloat (x : Q)
| VStr (s : string)
| VList (items : list value)
| VDict (items : list (string * value)).

(** [isinstance(v, (int, float))]; [bool] is a subclass of [int]. *)
Definition is_number (v : value) : bool :=
  match v with
  | VBool _ | VInt _ | VFloat _ => true
  | _ => false
  end.

(** [float(v)]. *)
Definition to_float `{FloatParse} `{FloatRange} (v : value) : result Q :=
  match v with
  | VBool b => mret (if b then 1 else 0)
  | VInt n =>
      if in_float_range (inject_Z n) then mret (inject_Z n)
      else Raise (OverflowError "int too large to convert to float")
  | VFloat x => mret x
  | VStr s =>
      match float_of_string s with
      | Some x => mret x
      | None => Raise (ValueError "could not convert string to float")
      end
  | VNone | VList _ | VDict _ =>
      Raise (TypeError
        "float() argument must be a string or a real number")
  end.

(** [d.get(key)] on a decoded object; the first binding of a key wins. *)
Fixpoint dict_get (key : string) (items : list (string * value))
  : option value :=
  match items with
  | [] => None
  | (k, v) :: rest =>
      if bool_decide (k = key) then Some v else dict_get key rest
  end.

(** [xs[:n]] for an integer [n] of either sign. *)
Definition slice_to {A} (n : Z) (xs : list A) : list A :=
  if bool_decide (0 <= n)%Z then take (Z.to_nat n) xs
  else take (Z.to_nat (Z.of_nat (length xs) + n)) xs.

(** [[x] * n] for an integer [n]: empty when [n <= 0]. *)
Definition replicate_int {A} (x : A) (n : Z) : list A :=
  repeat x (Z.to_nat n).

Section Normalize.
Context `{FloatParse} `{FloatRange}.

(** The body of the [for value in raw] loop: [float(value)], with
    [TypeError] and [ValueError] replaced by [0.0]. *)
Definition clean_entry (cleaned : list Q) (v : value) : result (list Q) :=
  match to_float v with
  | Return x => mret (cleaned ++ [x])
  | Raise (TypeError _) | Raise (ValueError _) => mret (cleaned ++ [0])
  | Raise e => Raise e
  end.

(** [while len(cleaned) < years: cleaned.append(cleaned[-1])]; the
    argument [n] counts the iterations left, [years - len(cleaned)]. *)
Fixpoint pad_loop (n : nat) (cleaned : list Q) : result (list Q) :=
  match n with
  | O => mret cleaned
  | S n' => x ← last_item cleaned; pad_loop n' (cleaned ++ [x])
  end.

Definition _normalize_growth_series (raw : value) (years : Z)
  : result (list Q) :=
  if is_number raw
  then x ← to_float raw; mret (replicate_int x (Z.max years 1))
  else
    match raw with
    | VList ((_ :: _) as items) =>
        cleaned ← for_each clean_entry items [];
        cleaned ← pad_loop
                    (Z.to_nat (years - Z.of_nat (length cleaned))) cleaned;
        mret (slice_to years cleaned)
    | _ => mret (replicate_int 0 (Z.max years 1))
    end.

(** The growth input [_build_scenarios] picks for one item:
    [growth_rates], or when that is missing or null, [growth_rate]
    with default [0.0]. *)
Definition growth_input (item : list (string * value)) : value :=
  match dict_get "growth_rates" item with
  | Some VNone | None => default (VFloat 0) (dict_get "growth_rate" item)
  | Some v => v
  end.

Definition scenario_growth_rates (item : list (string * value))
    (years : Z) : result (list Q) :=
  _normalize_growth_series (growth_input item) years.
End Normalize.

Module ValuationService.

Definition meta_number (m : option meta) : Q :=
  match m with
  | Some (Num x) => x
  | _ => 0
  end.

Definition _select_base_cashflow (snapshot : FinancialSnapshot.t)
    (use_owner_earnings : bool) : Q :=
  let history :=
    if use_owner_earnings
    then FinancialSnapshot.owner_earnings_history snapshot
    else FinancialSnapshot.fcf_history snapshot in
  match history with
  | x :: _ => x
  | [] =>
      let fallback :=
        meta_number (FinancialSnapshot.metadata snapshot
                       !! "latest_operating_cash_flow"%string) in
      let capex :=
        meta_number (FinancialSnapshot.metadata snapshot
                       !! "latest_capex"%string) in
      fallback - capex
  end.

(** The mode branch of [valuate]: which model is built and what it is
    applied to, once the request and the snapshot are resolved. *)
Definition valuate_model `{FloatFormat} `{FloatRange} (mode : string)
    (discount_rate margin_of_safety : Q) (use_owner_earnings : bool)
    (snapshot : FinancialSnapshot.t)
    (scenario_profiles : list ScenarioProfile.t)
  : result AggregateValuation.t :=
  let base_cashflow := _select_base_cashflow snapshot use_owner_earnings in
  if bool_decide (mode = "ddm"%string)
  then
    let base_cashflow :=
      FinancialSnapshot.dividends_per_share_ttm snapshot in
    let model :=
      DividendDiscountModel.__init__ discount_rate margin_of_safety in
    DividendDiscountModel.evaluate model base_cashflow
      (FinancialSnapshot.current_price snapshot) 1 scenario_profiles
  else
    let model :=
      DiscountedCashFlowModel.__init__ discount_rate margin_of_safety in
    DiscountedCashFlowModel.evaluate model base_cashflow
      (FinancialSnapshot.current_price snapshot)
      (FinancialSnapshot.shares_outstanding snapshot) scenario_profiles.

End ValuationService.
End valuation_service.

(** ** Reference instances of the built-ins, on exact rationals *)

Module Builtins.
Import Py.

(** Rounding to the nearest integer, ties to even. *)
Definition round_half_even (x : Q) : Z :=
  let fl := Qfloor x in
  let frac := x - inject_Z fl in
  if ltb frac (1 # 2) then fl
  else if gtb frac (1 # 2) then (fl + 1)%Z
  else if Z.even fl then fl else (fl + 1)%Z.

Definition sign_text (x : Q) : string :=
  if ltb x 0 then "-"%string else ""%string.

#[export] Instance exact_format : FloatFormat := {|
  format_pct0 x :=
    sign_text x +:+ pretty (round_half_even (Qabs x * 100)) +:+ "%";
  format_f1 x :=
    let n := round_half_even (Qabs x * 10) in
    sign_text x +:+ pretty (n / 10)%Z +:+ "." +:+ pretty (n mod 10)%Z
|}.

(** Unsigned decimal integers, the simplest numeric text. *)
Fixpoint digits_value (acc : Z) (cs : list ascii) : option Z :=
  match cs with
  | [] => Some acc
  | c :: rest =>
      let n := Z.of_nat (nat_of_ascii c) in
      if bool_decide (48 <= n <= 57)%Z
      then digits_value (10 * acc + (n - 48)) rest
      else None
  end.

(** IEEE 754 binary64: the largest finite value is [2^1024 - 2^971], and
    with rounding to nearest, ties to even, every magnitude below
    [2^1024 - 2^970] rounds to a finite value. *)
#[export] Instance binary64 : FloatRange := {|
  float_overflow := inject_Z (2 ^ 1024 - 2 ^ 970);
  float_overflow_gt_one := eq_refl
|}.

#[export] Instance digits_parse : FloatParse := {|
  float_of_string s :=
    match list_ascii_of_string s with
    | [] => None
    | cs => inject_Z <$> digits_value 0 cs
    end
|}.
End Builtins.

(** ** The quantities the specification names *)

Module Spec.
Import Py valuation_models.

(** [term from + term (from+1) + ... ], [count] terms. *)
Fixpoint series (term : nat -> Q) (from count : nat) : Q :=
  match count with
  | O => 0
  | S count' => term from + series term (S from) count'
  end.

(** [base*(1+g)^i / (1+r)^i]. *)
Definition discounted_term (base g r : Q) (i : nat) : Q :=
  base * power (1 + g) i / power (1 + r) i.

(** The closed form of the specification:
    [sum_{i=1..N} base*(1+g)^i/(1+r)^i + base*(1+g)^N*m/(1+r)^N]. *)
Definition closed_form (base g r m : Q) (N : nat) : Q :=
  series (discounted_term base g r) 1 N +
  base * power (1 + g) N * m / power (1 + r) N.

(** Normalised weights: uniform when the supplied probabilities sum to
    at most 0, proportional otherwise. *)
Definition weights (scenarios : list ScenarioProfile.t) : list Q :=
  let total := sum (map ScenarioProfile.probability scenarios) in
  if leb total 0
  then map (fun _ => 1 / len scenarios) scenarios
  else map (fun s => ScenarioProfile.probability s / total) scenarios.

(** The uniform distribution on [n] scenarios. *)
Definition uniform (n : nat) (ws : list Q) : Prop :=
  length ws = n /\ Forall (fun w => w == 1 / inject_Z (Z.of_nat n)) ws.

(** A list entry as a growth rate: its numeric value, or 0 when [float]
    rejects it. *)
Definition coerce `{FloatParse} `{FloatRange}
    (v : valuation_service.value) : Q :=
  match valuation_service.to_float v with
  | Return x => x
  | Raise _ => 0
  end.

(** The first candidate label that is a row of the table. *)
Definition first_present (df : data_provider.DataFrame.t)
    (labels : list string) : option string :=
  List.find (fun label => data_provider.DataFrame.contains label df) labels.

(** One component of the derived free cash flow, per period: the row of
    the first candidate label present, or 0 in every period when no
    candidate is. *)
Definition component (df : data_provider.DataFrame.t)
    (labels : list string) : list Q :=
  match first_present df labels with
  | Some label =>
      data_provider.DataFrame.fillna_series 0
        (default [] (data_provider.DataFrame.loc label df))
  | None => repeat 0 (length (data_provider.DataFrame.columns df))
  end.

(** A value is significant when it is off zero by more than 1e-9. *)
Definition significant (x : Q) : Prop := 1 # 1000000000 < Qabs x.
End Spec.

(** ** The projection loop, written out *)

Module Projection.
Import Py valuation_models.

(** The projected cash flows: the running products of [1 + rate]. *)
Fixpoint project (value : Q) (rates : list Q) : list Q :=
  match rates with
  | [] => []
  | rate :: rest => value * (1 + rate) :: project (value * (1 + rate)) rest
  end.

(** The running value after all the rates. *)
Definition final_value (value : Q) (rates : list Q) : Q :=
  fold_left (fun v rate => v * (1 + rate)) rates value.

(** Each cash flow over [(1 + r)] to the power of its year, from year [idx]. *)
Fixpoint discount (r : Q) (idx : nat) (cashflows : list Q) : list Q :=
  match cashflows with
  | [] => []
  | c :: rest => c / power (1 + r) idx :: discount r (S idx) rest
  end.

(** The warnings one growth rate adds. *)
Definition rate_warnings `{FloatFormat} (nm : string) (rate : Q)
  : list string :=
  (if gtb rate (15 # 100)
   then [nm +:+ ": Growth rate " +:+ format_pct0 rate +:+
         " exceeds conservative range."]
   else []) ++
  (if ltb rate (- (1 # 10))
   then [nm +:+ ": Growth rate " +:+ format_pct0 rate +:+
         " implies steep decline."]
   else []).

(** The warnings the terminal multiple adds. *)
Definition multiple_warnings `{FloatFormat} (nm : string) (m : Q)
  : list string :=
  (if gtb m 20
   then [nm +:+ ": Terminal multiple " +:+ format_f1 m +:+ " is aggressive."]
   else []) ++
  (if ltb m 5
   then [nm +:+ ": Terminal multiple " +:+ format_f1 m +:+
         " is unusually low."]
   else []).

(** A growth rate, and a terminal multiple, that draw no warning. *)
Definition conservative_rate (rate : Q) : Prop :=
  - (1 # 10) <= rate <= 15 # 100.
Definition usual_multiple (m : Q) : Prop := 5 <= m <= 20.

(** The discount factor of year [years] is a finite float. *)
Definition discount_factor_fits `{FloatRange} (r : Q) (years : nat) : Prop :=
  power (1 + r) years < float_overflow.

(** A scenario the model can value: it has a forecast year, and the
    discount factor of its last year is a finite float. *)
Definition forecastable `{FloatRange} (self : DiscountedCashFlowModel.t)
    (s : ScenarioProfile.t) : Prop :=
  ScenarioProfile.growth_rates s <> [] /\
  discount_factor_fits (DiscountedCashFlowModel.discount_rate self)
    (length (ScenarioProfile.growth_rates s)).

(** The aggregate [evaluate] assembles from the per-scenario valuations
    [vs]. *)
Definition assembled (self : DiscountedCashFlowModel.t) (price : Q)
    (scenarios : list ScenarioProfile.t) (vs : list ScenarioValuation.t)
  : AggregateValuation.t :=
  {| AggregateValuation.scenario_results := vs;
     AggregateValuation.weighted_intrinsic_value :=
       DiscountedCashFlowModel.weighted_sum vs (Spec.weights scenarios);
     AggregateValuation.margin_of_safety_buy_price :=
       DiscountedCashFlowModel.weighted_sum vs (Spec.weights scenarios) *
       (1 - DiscountedCashFlowModel.margin_of_safety self);
     AggregateValuation.current_price := price;
     AggregateValuation.metadata :=
       <["discount_rate" := DiscountedCashFlowModel.discount_rate self]>
         (<["margin_of_safety" :=
              DiscountedCashFlowModel.margin_of_safety self]> ∅);
     AggregateValuation.warnings :=
       Py.fromkeys (concat (map ScenarioValuation.warnings vs)) |}.

(** A JSON value [float] does not overflow on: anything but an integer
    beyond the float range. *)
Definition within_float_range `{FloatRange} (v : valuation_service.value)
  : Prop :=
  match v with
  | valuation_service.VInt n => Qabs (inject_Z n) < float_overflow
  | _ => True
  end.

(** A growth input [float] does not overflow on: a scalar within the float
    range, or a list whose entries are. *)
Definition series_within_float_range `{FloatRange}
    (raw : valuation_service.value) : Prop :=
  match raw with
  | valuation_service.VList items => Forall within_float_range items
  | _ => within_float_range raw
  end.

End Projection.

(** ** Ticker normalisation on character lists *)

Module Characters.
Import Py.

(** [strip] on the characters of a string. *)
Definition strip_chars (cs : list ascii) : list ascii :=
  rev (lstrip (rev (lstrip cs))).

End Characters.

(** ** Sample inputs *)

Module Examples.
Import Py valuation_models.

Definition base_scenario : ScenarioProfile.t :=
  {| ScenarioProfile.name := "Base";
     ScenarioProfile.growth_rates := [5 # 100; 5 # 100; 5 # 100];
     ScenarioProfile.terminal_multiple := 12;
     ScenarioProfile.probability := 1 # 4 |}.

Definition bull_scenario : ScenarioProfile.t :=
  {| ScenarioProfile.name := "Bull";
     ScenarioProfile.growth_rates := [8 # 100; 8 # 100; 8 # 100];
     ScenarioProfile.terminal_multiple := 15;
     ScenarioProfile.probability := 1 # 4 |}.

Definition unforecast_scenario : ScenarioProfile.t :=
  {| ScenarioProfile.name := "Bear";
     ScenarioProfile.growth_rates := [];
     ScenarioProfile.terminal_multiple := 10;
     ScenarioProfile.probability := 1 |}.

Definition flat_scenario : ScenarioProfile.t :=
  {| ScenarioProfile.name := "Flat";
     ScenarioProfile.growth_rates := [0];
     ScenarioProfile.terminal_multiple := 10;
     ScenarioProfile.probability := 1 |}.

(** A cash-flow statement without a "Free Cash Flow" row; one capex cell
    is missing. *)
Definition cashflow_table : data_provider.DataFrame.t :=
  {| data_provider.DataFrame.columns := ["2023"; "2022"]%string;
     data_provider.DataFrame.rows :=
       [("Total Cash From Operating Activities"%string, [Some 100; Some 80]);
        ("Capital Expenditure"%string, [Some (-20); None])] |}.

(** A statement whose "Free Cash Flow" row carries values. *)
Definition reported_fcf_table : data_provider.DataFrame.t :=
  {| data_provider.DataFrame.columns := ["2023"; "2022"]%string;
     data_provider.DataFrame.rows :=
       [("Operating Cash Flow"%string, [Some 100; Some 80]);
        ("Free Cash Flow"%string, [Some 70; None])] |}.

Definition sample_snapshot : data_provider.FinancialSnapshot.t :=
  {| data_provider.FinancialSnapshot.ticker := "ACME";
     data_provider.FinancialSnapshot.currency := "USD";
     data_provider.FinancialSnapshot.financial_currency := "USD";
     data_provider.FinancialSnapshot.shares_outstanding := 1000;
     data_provider.FinancialSnapshot.current_price := 100;
     data_provider.FinancialSnapshot.fcf_history := [120; 80];
     data_provider.FinancialSnapshot.owner_earnings_history := [];
     data_provider.FinancialSnapshot.dividends_per_share_ttm := 2;
     data_provider.FinancialSnapshot.metadata := ∅;
     data_provider.FinancialSnapshot.warnings := [] |}.

(** A provider that cached ACME at time 0, with the default TTL. *)
Definition warm_provider : data_provider.YahooFinanceDataProvider.t :=
  {| data_provider.YahooFinanceDataProvider.cache_ttl :=
       data_provider.YahooFinanceDataProvider.default_cache_ttl;
     data_provider.YahooFinanceDataProvider._cache :=
       {[ "ACME"%string :=
            {| data_provider.YahooFinanceDataProvider.payload :=
                 sample_snapshot;
               data_provider.YahooFinanceDataProvider.timestamp := 0 |} ]} |}.

Definition acme_upstream : data_provider.Ticker.t :=
  {| data_provider.Ticker.cashflow := Some cashflow_table;
     data_provider.Ticker.financials := None;
     data_provider.Ticker.balance_sheet := None;
     data_provider.Ticker.price := 101;
     data_provider.Ticker.shares := 1000;
     data_provider.Ticker.currency := "USD";
     data_provider.Ticker.financial_currency := "USD";
     data_provider.Ticker.fx_rate := 1;
     data_provider.Ticker.dividend_ttm := 2 |}.

(** A world whose clock reads [start], [start + 1], ... and whose upstream
    always answers with [acme_upstream]. *)
Definition world_at (start : Q) : data_provider.World.t :=
  {| data_provider.World.clock := fun n => start + inject_Z (Z.of_nat n);
     data_provider.World.reads := 0;
     data_provider.World.upstream := fun _ _ => Return acme_upstream;
     data_provider.World.requests := [] |}.

(** The same clock, with an upstream that cannot be reached. *)
Definition offline_world (start : Q) : data_provider.World.t :=
  {| data_provider.World.clock := fun n => start + inject_Z (Z.of_nat n);
     data_provider.World.reads := 0;
     data_provider.World.upstream :=
       fun _ _ => Raise (UpstreamError "unreachable");
     data_provider.World.requests := [] |}.

(** FX quotes that know one pair only. *)
Definition euro_quotes (pair : string) : result (gmap string Q) :=
  if bool_decide (pair = "EURUSD=X"%string)
  then Return {[ "lastPrice"%string := 11 # 10 ]}
  else Raise (UpstreamError "no such symbol").

End Examples.

(** ** Facts about the runtime fragments *)

Section PyFacts.
Import Py.

Lemma ltb_true (x y : Q) : ltb x y = true <-> x < y.
Proof.
  unfold ltb. rewrite negb_true_iff.
  destruct (Qle_bool y x) eqn:E.
  - apply Qle_bool_iff in E. split; [discriminate | lra].
  - split; [intros _ | reflexivity].
    destruct (Qlt_le_dec x y) as [Hlt | Hle]; [exact Hlt |].
    apply Qle_bool_iff in Hle. congruence.
Qed.

Lemma ltb_false (x y : Q) : ltb x y = false <-> y <= x.
Proof.
  unfold ltb. rewrite negb_false_iff. apply Qle_bool_iff.
Qed.

Lemma gtb_true (x y : Q) : gtb x y = true <-> y < x.
Proof. apply ltb_true. Qed.

Lemma gtb_false (x y : Q) : gtb x y = false <-> x <= y.
Proof. apply ltb_false. Qed.

Lemma leb_true (x y : Q) : leb x y = true <-> x <= y.
Proof. apply Qle_bool_iff. Qed.

Lemma leb_false (x y : Q) : leb x y = false <-> y < x.
Proof.
  unfold leb. destruct (Qle_bool x y) eqn:E.
  - apply Qle_bool_iff in E. split; [discriminate | lra].
  - split; [intros _ | reflexivity].
    destruct (Qlt_le_dec y x) as [Hlt | Hle]; [exact Hlt |].
    apply Qle_bool_iff in Hle. congruence.
Qed.

Lemma Qeq_bool_false (x y : Q) : Qeq_bool x y = false <-> ~ x == y.
Proof.
  split.
  - intros E Heq. apply Qeq_bool_iff in Heq. congruence.
  - intros Hne. destruct (Qeq_bool x y) eqn:E; [| reflexivity].
    apply Qeq_bool_iff in E. contradiction.
Qed.

Lemma truthy_true (x : Q) : truthy x = true <-> ~ x == 0.
Proof. unfold truthy. rewrite negb_true_iff. apply Qeq_bool_false. Qed.

Lemma truthy_false (x : Q) : truthy x = false <-> x == 0.
Proof. unfold truthy. rewrite negb_false_iff. apply Qeq_bool_iff. Qed.

Lemma div_nonzero (a b : Q) : ~ b == 0 -> div a b = Return (a / b).
Proof.
  intros Hb. unfold div. apply Qeq_bool_false in Hb. now rewrite Hb.
Qed.

Lemma div_truthy (a b : Q) : truthy b = true -> div a b = Return (a / b).
Proof. intros Hb. apply div_nonzero. now apply truthy_true. Qed.

Lemma max_lower (a b : Q) : b <= max a b.
Proof.
  unfold max. destruct (gtb b a) eqn:E; [lra |].
  apply gtb_false in E. exact E.
Qed.

Lemma max_cases (a b : Q) :
  (a < b /\ max a b = b) \/ (b <= a /\ max a b = a).
Proof.
  unfold max. destruct (gtb b a) eqn:E.
  - left. apply gtb_true in E. auto.
  - right. apply gtb_false in E. auto.
Qed.

Lemma min_cases (a b : Q) :
  (b < a /\ min a b = b) \/ (a <= b /\ min a b = a).
Proof.
  unfold min. destruct (ltb b a) eqn:E.
  - left. apply ltb_true in E. auto.
  - right. apply ltb_false in E. auto.
Qed.

Lemma power_pos (x : Q) (n : nat) : 0 < x -> 0 < power x n.
Proof.
  intros Hx. induction n as [| n IH]; simpl; [reflexivity |].
  apply Qmult_lt_0_compat; assumption.
Qed.

Lemma power_nonzero (x : Q) (n : nat) : 0 < x -> ~ power x n == 0.
Proof. intros Hx Hz. pose proof (power_pos x n Hx). lra. Qed.

Lemma fold_plus_shift (xs : list Q) (a : Q) :
  fold_left Qplus xs a == a + fold_left Qplus xs 0.
Proof.
  revert a. induction xs as [| x xs IH]; intros a; simpl; [ring |].
  rewrite (IH (a + x)), (IH (0 + x)). ring.
Qed.

Lemma sum_cons (x : Q) (xs : list Q) : sum (x :: xs) == x + sum xs.
Proof. unfold sum. simpl. rewrite fold_plus_shift. ring. Qed.

Lemma sum_snoc (xs : list Q) (x : Q) : sum (xs ++ [x]) = sum xs + x.
Proof. unfold sum. now rewrite fold_left_app. Qed.

Lemma sum_nonpos (xs : list Q) : Forall (fun x => x <= 0) xs -> sum xs <= 0.
Proof.
  induction 1 as [| x xs Hx _ IH].
  - unfold sum. simpl. lra.
  - rewrite sum_cons. lra.
Qed.

Lemma comprehension_total {A B} (f : A -> result B) (g : A -> B)
    (xs : list A) :
  (forall x, x ∈ xs -> f x = Return (g x)) ->
  comprehension f xs = Return (map g xs).
Proof.
  induction xs as [| x xs IH]; intros Hf; simpl; [reflexivity |].
  rewrite Hf by left. simpl. rewrite IH; [reflexivity |].
  intros y Hy. apply Hf. now right.
Qed.

End PyFacts.

Section ListFacts.
Import Py Projection.

Lemma fromkeys_acc_elem (seen xs : list string) (x : string) :
  x ∈ fromkeys_acc seen xs <-> x ∈ xs /\ x ∉ seen.
Proof.
  revert seen. induction xs as [| y xs IH]; intros seen; simpl.
  - split; [intros Hin; inversion Hin | intros [Hin _]; inversion Hin].
  - destruct (bool_decide (y ∈ seen)) eqn:E.
    + apply bool_decide_eq_true_1 in E. rewrite IH, elem_of_cons.
      split; [intros [? ?]; auto |].
      intros [[-> | Hin] Hnot]; [contradiction | auto].
    + apply bool_decide_eq_false_1 in E.
      rewrite elem_of_cons, IH, !elem_of_cons. split.
      * intros [-> | [Hin Hnot]]; [auto |]. split; [auto |].
        intros Hs. apply Hnot. now right.
      * intros [[-> | Hin] Hnot]; [now left |].
        destruct (decide (x = y)) as [-> | Hne]; [now left |].
        right. split; [exact Hin |]. intros [-> | Hs]; contradiction.
Qed.

Lemma fromkeys_acc_NoDup (seen xs : list string) :
  NoDup (fromkeys_acc seen xs).
Proof.
  revert seen. induction xs as [| y xs IH]; intros seen; simpl.
  - constructor.
  - destruct (bool_decide (y ∈ seen)); [apply IH |].
    constructor; [| apply IH].
    rewrite fromkeys_acc_elem. intros [_ Hnot]. apply Hnot. now left.
Qed.

Lemma fromkeys_elem (xs : list string) (x : string) :
  x ∈ fromkeys xs <-> x ∈ xs.
Proof.
  unfold fromkeys. rewrite fromkeys_acc_elem. split; [now intros [? _] |].
  intros Hin. split; [exact Hin | intros Hs; inversion Hs].
Qed.

Lemma fromkeys_NoDup (xs : list string) : NoDup (fromkeys xs).
Proof. apply fromkeys_acc_NoDup. Qed.

Lemma fromkeys_nil (xs : list string) : fromkeys xs = [] <-> xs = [].
Proof.
  split; [| intros ->; reflexivity].
  destruct xs as [| x xs]; [reflexivity | discriminate].
Qed.

Lemma sum_nonneg (xs : list Q) : Forall (fun x => 0 <= x) xs -> 0 <= sum xs.
Proof.
  induction 1 as [| x xs Hx _ IH].
  - unfold sum. simpl. lra.
  - rewrite sum_cons. lra.
Qed.

Lemma sum_scaled (k : Q) (xs ys : list Q) :
  Forall2 (fun x y => x == k * y) xs ys -> sum xs == k * sum ys.
Proof.
  induction 1 as [| x y xs ys Hxy _ IH].
  - unfold sum. simpl. ring.
  - rewrite !sum_cons, IH, Hxy. ring.
Qed.

Lemma power_ge_one (x : Q) (n : nat) : 1 <= x -> 1 <= power x n.
Proof.
  intros Hx. induction n as [| n IH]; simpl; [lra |].
  assert (0 <= (x - 1) * (power x n - 1))
    by (apply Qmult_le_0_compat; lra).
  lra.
Qed.

Lemma power_one (r : Q) (n : nat) : r == 0 -> power (1 + r) n == 1.
Proof.
  intros Hr. induction n as [| n IH]; simpl; [reflexivity |].
  rewrite IH, Hr. ring.
Qed.

Lemma sum_pointwise (xs ys : list Q) : Forall2 Qeq xs ys -> sum xs == sum ys.
Proof.
  induction 1 as [| x y xs ys Hxy _ IH]; [reflexivity |].
  now rewrite !sum_cons, IH, Hxy.
Qed.

Lemma elem_of_concat {A} (x : A) (ls : list (list A)) :
  x ∈ concat ls <-> exists l, x ∈ l /\ l ∈ ls.
Proof.
  induction ls as [| l ls IH]; simpl.
  - split; [intros Hin; inversion Hin | intros (l & _ & Hl); inversion Hl].
  - rewrite elem_of_app, IH. split.
    + intros [Hin | (l' & Hin & Hl')].
      * exists l. split; [exact Hin | left].
      * exists l'. split; [exact Hin | now right].
    + intros (l' & Hin & Hl'). apply elem_of_cons in Hl'.
      destruct Hl' as [-> | Hl']; [now left | right; eauto].
Qed.

Lemma project_nonneg (v : Q) (rates : list Q) :
  0 <= v -> Forall (fun g => -1 <= g) rates ->
  Forall (fun c => 0 <= c) (project v rates) /\ 0 <= final_value v rates.
Proof.
  intros Hv Hall. revert v Hv.
  induction Hall as [| g rates Hg _ IH]; intros v Hv.
  - split; [constructor | exact Hv].
  - assert (Hstep : 0 <= v * (1 + g)) by (apply Qmult_le_0_compat; lra).
    destruct (IH _ Hstep) as [Hcfs Hlast].
    split; [constructor; assumption | exact Hlast].
Qed.

Lemma discount_nonneg (r : Q) (idx : nat) (cfs : list Q) :
  0 <= r -> Forall (fun c => 0 <= c) cfs ->
  Forall (fun c => 0 <= c) (discount r idx cfs).
Proof.
  intros Hr Hall. revert idx.
  induction Hall as [| c cfs Hc _ IH]; intros idx; simpl; constructor.
  - apply Qle_shift_div_l; [apply power_pos; lra | lra].
  - apply IH.
Qed.

Lemma project_scaled (k v1 v2 : Q) (rates : list Q) :
  v1 == k * v2 ->
  Forall2 (fun x y => x == k * y) (project v1 rates) (project v2 rates) /\
  final_value v1 rates == k * final_value v2 rates.
Proof.
  revert v1 v2. induction rates as [| g rates IH]; intros v1 v2 Hv.
  - split; [constructor | exact Hv].
  - assert (Hstep : v1 * (1 + g) == k * (v2 * (1 + g)))
      by (rewrite Hv; ring).
    destruct (IH _ _ Hstep) as [Hcfs Hlast].
    split; [constructor; assumption | exact Hlast].
Qed.

Lemma discount_scaled (k r : Q) (idx : nat) (xs ys : list Q) :
  0 <= r ->
  Forall2 (fun x y => x == k * y) xs ys ->
  Forall2 (fun x y => x == k * y) (discount r idx xs) (discount r idx ys).
Proof.
  intros Hr Hall. revert idx.
  induction Hall as [| x y xs ys Hxy _ IH]; intros idx; simpl; constructor.
  - rewrite Hxy. field. apply power_nonzero. lra.
  - apply IH.
Qed.

Lemma discount_magnitude (r : Q) (idx : nat) (cfs : list Q) :
  0 <= r ->
  Forall2 (fun c d => Qabs d <= Qabs c) cfs (discount r idx cfs).
Proof.
  intros Hr. revert idx.
  induction cfs as [| c cfs IH]; intros idx; simpl; constructor; [| apply IH].
  pose proof (power_ge_one (1 + r) idx ltac:(lra)) as Hp.
  unfold Qdiv. rewrite Qabs_Qmult.
  rewrite (Qabs_pos (/ power (1 + r) idx))
    by (apply Qinv_le_0_compat; lra).
  pose proof (Qabs_nonneg c) as Hc.
  apply Qle_shift_div_r; [lra |].
  assert (0 <= Qabs c * (power (1 + r) idx - 1))
    by (apply Qmult_le_0_compat; lra).
  lra.
Qed.

Lemma divide_magnitude (x p : Q) : 1 <= p -> Qabs (x / p) <= Qabs x.
Proof.
  intros Hp. unfold Qdiv. rewrite Qabs_Qmult.
  rewrite (Qabs_pos (/ p)) by (apply Qinv_le_0_compat; lra).
  pose proof (Qabs_nonneg x) as Hx.
  apply Qle_shift_div_r; [lra |].
  assert (0 <= Qabs x * (p - 1)) by (apply Qmult_le_0_compat; lra).
  lra.
Qed.

Lemma discount_zero_rate (r : Q) (idx : nat) (cfs : list Q) :
  r == 0 -> Forall2 Qeq (discount r idx cfs) cfs.
Proof.
  intros Hr. revert idx.
  induction cfs as [| c cfs IH]; intros idx; simpl; constructor; [| apply IH].
  rewrite (power_one r idx Hr). field.
Qed.

End ListFacts.

Section RangeFacts.
Import Py Projection.
Context `{FloatRange}.

Lemma power_monotone (x : Q) (n m : nat) :
  1 <= x -> (n <= m)%nat -> power x n <= power x m.
Proof.
  intros Hx Hnm. induction Hnm as [| m Hnm IH]; [lra |].
  simpl. pose proof (power_ge_one x m Hx).
  assert (0 <= (x - 1) * power x m) by (apply Qmult_le_0_compat; lra).
  lra.
Qed.

Lemma pow_fits (x : Q) (n : nat) :
  0 < x -> power x n < float_overflow -> pow x n = Return (power x n).
Proof.
  intros Hx Hfit. unfold pow, in_float_range.
  pose proof (power_pos x n Hx) as Hpos.
  assert (Hle : ltb (Qabs (power x n)) float_overflow = true).
  { apply ltb_true. rewrite Qabs_pos by lra. exact Hfit. }
  now rewrite Hle.
Qed.

Lemma pow_overflows (x : Q) (n : nat) :
  0 < x -> float_overflow <= power x n ->
  pow x n = Raise (OverflowError overflow_text).
Proof.
  intros Hx Hover. unfold pow, in_float_range.
  pose proof (power_pos x n Hx) as Hpos.
  assert (Hle : ltb (Qabs (power x n)) float_overflow = false).
  { apply ltb_false. rewrite Qabs_pos by lra. exact Hover. }
  now rewrite Hle.
Qed.

Lemma discount_factor_fits_earlier (r : Q) (n m : nat) :
  0 <= r -> (n <= m)%nat ->
  discount_factor_fits r m -> discount_factor_fits r n.
Proof.
  unfold discount_factor_fits. intros Hr Hnm Hfit.
  pose proof (power_monotone (1 + r) n m ltac:(lra) Hnm). lra.
Qed.

Lemma discount_factor_fits_zero (r : Q) (n : nat) :
  r == 0 -> discount_factor_fits r n.
Proof.
  intros Hr. unfold discount_factor_fits. rewrite (power_one r n Hr).
  apply float_overflow_gt_one.
Qed.

Lemma discount_factor_fits_dec (r : Q) (n : nat) :
  discount_factor_fits r n \/ float_overflow <= power (1 + r) n.
Proof.
  unfold discount_factor_fits.
  destruct (Qlt_le_dec (power (1 + r) n) float_overflow); auto.
Qed.

End RangeFacts.

(** ** Facts about the valuation engine *)

Section EngineFacts.
Import Py valuation_models Projection.
Import DiscountedCashFlowModel.
Context `{FloatFormat} `{FloatRange}.

Lemma init_discount_rate_nonneg (d m : Q) : 0 <= discount_rate (__init__ d m).
Proof. simpl. apply max_lower. Qed.

Lemma init_margin_bounds (d m : Q) :
  0 <= margin_of_safety (__init__ d m) <= 99 # 100.
Proof.
  simpl.
  destruct (min_cases m (99 # 100)) as [[? ->] | [? ->]];
    destruct (max_cases (99 # 100) 0) as [[? E] | [? E]];
    destruct (max_cases m 0) as [[? E'] | [? E']];
    rewrite ?E, ?E'; lra.
Qed.

Lemma init_margin_zero (d m : Q) :
  m == 0 -> margin_of_safety (__init__ d m) == 0.
Proof.
  intros Hm. simpl.
  destruct (min_cases m (99 # 100)) as [[? ->] | [? ->]]; [lra |].
  destruct (max_cases m 0) as [[? ->] | [? ->]]; lra.
Qed.

(** One iteration whose discount factor is a finite float. *)
Lemma loop_body_explicit (self : t) (nm : string) (vars : loop_vars)
    (idx : nat) (rate : Q) :
  0 <= discount_rate self ->
  discount_factor_fits (discount_rate self) idx ->
  loop_body self nm vars (idx, rate) =
  Return {| value := value vars * (1 + rate);
            cashflows := cashflows vars ++ [value vars * (1 + rate)];
            discounted :=
              discounted vars ++
              [value vars * (1 + rate) / power (1 + discount_rate self) idx];
            warnings := warnings vars ++ rate_warnings nm rate |}.
Proof.
  intros Hr Hfit. unfold loop_body, rate_warnings.
  rewrite pow_fits by (lra || exact Hfit).
  cbn [mbind result_bind bind].
  rewrite div_nonzero by (apply power_nonzero; lra).
  cbn [mbind result_bind bind mret result_ret].
  destruct (gtb rate (15 # 100)), (ltb rate (- (1 # 10)));
    cbn [app]; rewrite <- ?app_assoc, ?app_nil_r; reflexivity.
Qed.

(** One iteration whose discount factor leaves the float range. *)
Lemma loop_body_overflows (self : t) (nm : string) (vars : loop_vars)
    (idx : nat) (rate : Q) :
  0 <= discount_rate self ->
  float_overflow <= power (1 + discount_rate self) idx ->
  loop_body self nm vars (idx, rate) = Raise (OverflowError overflow_text).
Proof.
  intros Hr Hover. unfold loop_body.
  rewrite pow_overflows by (lra || exact Hover). reflexivity.
Qed.

Lemma loop_explicit (self : t) (nm : string) (rates : list Q) :
  0 <= discount_rate self ->
  forall (idx : nat) (vars : loop_vars),
    (forall i, (i < idx + length rates)%nat ->
               discount_factor_fits (discount_rate self) i) ->
    for_each (loop_body self nm) (enumerate idx rates) vars =
    Return {| value := final_value (value vars) rates;
              cashflows := cashflows vars ++ project (value vars) rates;
              discounted :=
                discounted vars ++
                discount (discount_rate self) idx
                  (project (value vars) rates);
              warnings :=
                warnings vars ++ concat (map (rate_warnings nm) rates) |}.
Proof.
  intros Hr. induction rates as [| rate rates IH]; intros idx vars Hfit.
  - simpl. rewrite !app_nil_r. now destruct vars.
  - cbn [enumerate for_each].
    rewrite loop_body_explicit by (exact Hr || (apply Hfit; simpl; lia)).
    cbn [bind]. rewrite IH by (intros i Hi; apply Hfit; simpl; lia).
    cbn [value cashflows discounted warnings project discount map concat
         final_value fold_left].
    now rewrite <- !app_assoc.
Qed.

(** When the discount factor of the last year overflows, the loop raises,
    at that year or before. *)
Lemma loop_overflows (self : t) (nm : string) (rates : list Q) :
  0 <= discount_rate self ->
  forall (idx last : nat) (vars : loop_vars),
    (idx + length rates = S last)%nat ->
    rates <> [] ->
    float_overflow <= power (1 + discount_rate self) last ->
    for_each (loop_body self nm) (enumerate idx rates) vars =
    Raise (OverflowError overflow_text).
Proof.
  intros Hr. induction rates as [| rate rates IH];
    intros idx last vars Hlast Hne Hover; [easy |].
  cbn [enumerate for_each].
  destruct (discount_factor_fits_dec (discount_rate self) idx)
    as [Hfit | Hidx].
  - rewrite loop_body_explicit by assumption. cbn [bind].
    destruct rates as [| rate' rates'].
    + simpl in Hlast. assert (last = idx) by lia. subst last.
      unfold discount_factor_fits in Hfit. lra.
    + apply (IH (S idx) last); [simpl in *; lia | discriminate | exact Hover].
  - now rewrite loop_body_overflows.
Qed.

Lemma project_length (v : Q) (rates : list Q) :
  length (project v rates) = length rates.
Proof.
  revert v. induction rates as [| g rates IH]; intros v; simpl;
    [reflexivity | now rewrite IH].
Qed.

Lemma discount_length (r : Q) (idx : nat) (cfs : list Q) :
  length (discount r idx cfs) = length cfs.
Proof.
  revert idx. induction cfs as [| c cfs IH]; intros idx; simpl;
    [reflexivity | now rewrite IH].
Qed.

Lemma project_last (v : Q) (rates : list Q) :
  rates <> [] -> last (project v rates) = Some (final_value v rates).
Proof.
  revert v. induction rates as [| g rates IH]; intros v Hne; [easy |].
  destruct rates as [| g' rates']; [reflexivity |].
  cbn [project]. rewrite last_cons.
  cbn [project] in IH. rewrite (IH (v * (1 + g))) by discriminate.
  reflexivity.
Qed.

(** The valuation of a scenario the model can value, field by field. *)
Lemma evaluate_scenario_explicit (self : t) (base price : Q)
    (scenario : ScenarioProfile.t) :
  0 <= discount_rate self ->
  forecastable self scenario ->
  let rates := ScenarioProfile.growth_rates scenario in
  let m := ScenarioProfile.terminal_multiple scenario in
  let nm := ScenarioProfile.name scenario in
  let r := discount_rate self in
  let cfs := project base rates in
  let tv := final_value base rates * m in
  let dtv := tv / power (1 + r) (length rates) in
  let iv := sum (discount r 1 cfs) + dtv in
  let buy := iv * (1 - margin_of_safety self) in
  _evaluate_scenario self base price scenario =
  Return {|
    ScenarioValuation.name := nm;
    ScenarioValuation.intrinsic_value := iv;
    ScenarioValuation.buy_price := buy;
    ScenarioValuation.upside :=
      if truthy price then iv / price - 1 else 0;
    ScenarioValuation.downside :=
      if truthy price then buy / price - 1 else 0;
    ScenarioValuation.margin_of_safety_pct := margin_of_safety self;
    ScenarioValuation.effective_growth_rates := rates;
    ScenarioValuation.terminal_multiple := m;
    ScenarioValuation.cashflows := cfs;
    ScenarioValuation.discounted_cashflows := discount r 1 cfs;
    ScenarioValuation.terminal_value := tv;
    ScenarioValuation.discounted_terminal_value := dtv;
    ScenarioValuation.warnings :=
      fromkeys (concat (map (rate_warnings nm) rates) ++
                multiple_warnings nm m)
  |}.
Proof.
  intros Hr [Hne Hfit] rates m nm r cfs tv dtv iv buy.
  unfold _evaluate_scenario. fold rates.
  rewrite bool_decide_eq_false_2
    by (subst rates; destruct (ScenarioProfile.growth_rates scenario);
        [easy | discriminate]).
  rewrite loop_explicit
    by (exact Hr ||
        (intros i Hi;
         apply (discount_factor_fits_earlier _ i (length rates) Hr);
         [lia | exact Hfit])).
  cbn [mbind result_bind bind value cashflows discounted warnings app].
  unfold last_item. fold nm. rewrite project_last by exact Hne.
  cbn [mbind result_bind bind]. fold m r.
  rewrite pow_fits by (subst r; lra || exact Hfit).
  cbn [mbind result_bind bind].
  rewrite div_nonzero by (apply power_nonzero; subst r; lra).
  cbn [mbind result_bind bind]. fold cfs tv dtv iv buy.
  assert (Hw :
    (let w := concat (map (rate_warnings nm) rates) in
     let w := if gtb m 20
              then w ++ [nm +:+ ": Terminal multiple " +:+ format_f1 m +:+
                         " is aggressive."]
              else w in
     if ltb m 5
     then w ++ [nm +:+ ": Terminal multiple " +:+ format_f1 m +:+
                " is unusually low."]
     else w) =
    concat (map (rate_warnings nm) rates) ++ multiple_warnings nm m).
  { unfold multiple_warnings. cbv zeta.
    destruct (gtb m 20), (ltb m 5);
      cbn [app]; rewrite <- ?app_assoc, ?app_nil_r; reflexivity. }
  cbv zeta in Hw.
  destruct (truthy price) eqn:Hp.
  - rewrite !div_truthy by exact Hp.
    cbn [mbind result_bind bind mret result_ret]. now rewrite Hw.
  - cbn [mbind result_bind bind mret result_ret]. now rewrite Hw.
Qed.

(** A scenario with forecast years whose last discount factor leaves the
    float range is not valued: the power raises. *)
Lemma evaluate_scenario_overflows (self : t) (base price : Q)
    (scenario : ScenarioProfile.t) :
  0 <= discount_rate self ->
  ScenarioProfile.growth_rates scenario <> [] ->
  float_overflow <= power (1 + discount_rate self)
                    (length (ScenarioProfile.growth_rates scenario)) ->
  _evaluate_scenario self base price scenario =
  Raise (OverflowError overflow_text).
Proof.
  intros Hr Hne Hover. unfold _evaluate_scenario.
  rewrite bool_decide_eq_false_2
    by (destruct (ScenarioProfile.growth_rates scenario);
        [easy | discriminate]).
  rewrite (loop_overflows self _ _ Hr 1
             (length (ScenarioProfile.growth_rates scenario)))
    by (reflexivity || assumption).
  reflexivity.
Qed.

Lemma evaluate_scenario_empty (self : t) (base price : Q)
    (scenario : ScenarioProfile.t) :
  ScenarioProfile.growth_rates scenario = [] ->
  _evaluate_scenario self base price scenario =
  Raise (ValueError
           "Growth rates are required for at least one forecast year.").
Proof. intros E. unfold _evaluate_scenario. now rewrite E. Qed.

(** A valuation that was returned came from a scenario the model can
    value. *)
Lemma evaluate_scenario_returned (self : t) (base price : Q)
    (scenario : ScenarioProfile.t) (v : ScenarioValuation.t) :
  0 <= discount_rate self ->
  _evaluate_scenario self base price scenario = Return v ->
  forecastable self scenario.
Proof.
  intros Hr Hv.
  destruct (ScenarioProfile.growth_rates scenario) as [| g gs] eqn:Hrates.
  - rewrite (evaluate_scenario_empty self base price scenario Hrates) in Hv.
    discriminate.
  - assert (Hne : ScenarioProfile.growth_rates scenario <> [])
      by (rewrite Hrates; discriminate).
    split; [exact Hne |].
    destruct (discount_factor_fits_dec (discount_rate self)
                (length (ScenarioProfile.growth_rates scenario)))
      as [Hfit | Hover]; [exact Hfit |].
    rewrite (evaluate_scenario_overflows self base price scenario Hr Hne Hover)
      in Hv.
    discriminate.
Qed.

(** The only exceptions of [_evaluate_scenario]. *)
Lemma evaluate_scenario_raised (self : t) (base price : Q)
    (scenario : ScenarioProfile.t) (e : exn) :
  0 <= discount_rate self ->
  _evaluate_scenario self base price scenario = Raise e ->
  (ScenarioProfile.growth_rates scenario = [] /\
   e = ValueError
         "Growth rates are required for at least one forecast year.") \/
  (ScenarioProfile.growth_rates scenario <> [] /\
   e = OverflowError overflow_text).
Proof.
  intros Hr He.
  destruct (ScenarioProfile.growth_rates scenario) as [| g gs] eqn:Hrates.
  - rewrite (evaluate_scenario_empty self base price scenario Hrates) in He.
    injection He as <-. now left.
  - assert (Hne : ScenarioProfile.growth_rates scenario <> [])
      by (rewrite Hrates; discriminate).
    right. split; [discriminate |].
    destruct (discount_factor_fits_dec (discount_rate self)
                (length (ScenarioProfile.growth_rates scenario)))
      as [Hfit | Hover].
    + pose proof (evaluate_scenario_explicit self base price scenario Hr
                    (conj Hne Hfit)) as Hv.
      cbv zeta in Hv. rewrite Hv in He. discriminate.
    + rewrite (evaluate_scenario_overflows self base price scenario Hr Hne
                 Hover) in He.
      now injection He as <-.
Qed.

Lemma evaluate_scenario_buy_price (self : t) (base price : Q)
    (scenario : ScenarioProfile.t) (v : ScenarioValuation.t) :
  0 <= discount_rate self ->
  _evaluate_scenario self base price scenario = Return v ->
  ScenarioValuation.buy_price v =
  ScenarioValuation.intrinsic_value v * (1 - margin_of_safety self).
Proof.
  intros Hr Hv.
  pose proof (evaluate_scenario_returned self base price scenario v Hr Hv)
    as Hok.
  pose proof (evaluate_scenario_explicit self base price scenario Hr Hok)
    as Hex.
  cbv zeta in Hex. rewrite Hv in Hex. injection Hex as ->. reflexivity.
Qed.

End EngineFacts.

Section AggregateFacts.
Import Py valuation_models Spec Projection.
Import DiscountedCashFlowModel.
Context `{FloatFormat} `{FloatRange}.

Lemma len_nonzero {A} (x : A) (xs : list A) : ~ len (x :: xs) == 0.
Proof. unfold len, Qeq. simpl. lia. Qed.

Lemma probabilities_weights (scenarios : list ScenarioProfile.t) :
  probabilities scenarios = Return (weights scenarios).
Proof.
  unfold probabilities, weights.
  destruct (leb _ 0) eqn:Htotal.
  - apply comprehension_total. intros s Hs.
    destruct scenarios as [| s0 rest]; [inversion Hs |].
    apply div_nonzero, len_nonzero.
  - apply comprehension_total. intros s _.
    apply div_nonzero. apply leb_false in Htotal. lra.
Qed.

Lemma sum_map_const {A} (c : Q) (xs : list A) :
  sum (map (fun _ => c) xs) == len xs * c.
Proof.
  induction xs as [| x xs IH].
  - unfold sum, len. simpl. ring.
  - cbn [map]. rewrite sum_cons, IH. unfold len.
    cbn [length]. rewrite Nat2Z.inj_succ. unfold Z.succ.
    rewrite inject_Z_plus. ring.
Qed.

Lemma sum_map_div {A} (f : A -> Q) (t : Q) (xs : list A) :
  sum (map (fun x => f x / t) xs) == sum (map f xs) / t.
Proof.
  induction xs as [| x xs IH].
  - unfold sum. simpl. unfold Qdiv. ring.
  - cbn [map]. rewrite !sum_cons, IH. unfold Qdiv. ring.
Qed.

Lemma weights_length (scenarios : list ScenarioProfile.t) :
  length (weights scenarios) = length scenarios.
Proof. unfold weights. destruct (leb _ 0); apply length_map. Qed.

Lemma weights_sum (scenarios : list ScenarioProfile.t) :
  scenarios <> [] -> sum (weights scenarios) == 1.
Proof.
  intros Hne. unfold weights. destruct (leb _ 0) eqn:Htotal.
  - rewrite sum_map_const. destruct scenarios as [| s rest]; [easy |].
    field. apply len_nonzero.
  - rewrite sum_map_div. apply leb_false in Htotal. field. lra.
Qed.

Lemma weights_uniform_when_total_nonpos (scenarios : list ScenarioProfile.t) :
  sum (map ScenarioProfile.probability scenarios) <= 0 ->
  uniform (length scenarios) (weights scenarios).
Proof.
  intros Htotal. split; [apply weights_length |].
  unfold weights. apply leb_true in Htotal. rewrite Htotal.
  apply Forall_forall. intros w Hw. apply list_elem_of_fmap in Hw.
  destruct Hw as [s [-> _]]. reflexivity.
Qed.

Lemma sum_map_all_equal {A} (f : A -> Q) (c : Q) (xs : list A) :
  Forall (fun x => f x == c) xs -> sum (map f xs) == len xs * c.
Proof.
  induction 1 as [| x xs Hx _ IH].
  - unfold sum, len. simpl. ring.
  - cbn [map]. rewrite sum_cons, IH, Hx. unfold len.
    cbn [length]. rewrite Nat2Z.inj_succ. unfold Z.succ.
    rewrite inject_Z_plus. ring.
Qed.

Lemma len_positive {A} (x : A) (xs : list A) : 0 < len (x :: xs).
Proof. unfold len, Qlt. simpl. lia. Qed.

Lemma weights_uniform_when_equal_positive
    (scenarios : list ScenarioProfile.t) (c : Q) :
  0 < c ->
  Forall (fun s => ScenarioProfile.probability s == c) scenarios ->
  uniform (length scenarios) (weights scenarios).
Proof.
  intros Hc Hall. split; [apply weights_length |].
  destruct scenarios as [| s0 rest]; [constructor |].
  pose proof (sum_map_all_equal ScenarioProfile.probability c _ Hall)
    as Htotal.
  pose proof (len_positive s0 rest) as Hlen.
  assert (Hpos : 0 < len (s0 :: rest) * c)
    by (apply Qmult_lt_0_compat; assumption).
  unfold weights.
  destruct (leb _ 0) eqn:Hbranch.
  - apply leb_true in Hbranch. rewrite Htotal in Hbranch. lra.
  - apply Forall_forall. intros w Hw. apply list_elem_of_fmap in Hw.
    destruct Hw as [s [-> Hs]].
    rewrite Htotal, (proj1 (Forall_forall _ _) Hall s Hs).
    fold (len (s0 :: rest)). field. split; lra.
Qed.

Lemma collect_returns (self : t) (per_share price : Q)
    (scenarios : list ScenarioProfile.t) :
  0 <= discount_rate self ->
  Forall (forecastable self) scenarios ->
  forall acc,
    exists vs,
      for_each (collect self per_share price) scenarios acc =
        Return (acc.1 ++ vs,
                acc.2 ++ concat (map ScenarioValuation.warnings vs)) /\
      Forall2 (fun s v => _evaluate_scenario self per_share price s = Return v)
              scenarios vs.
Proof.
  intros Hr Hall. induction Hall as [| s rest Hs _ IH]; intros acc.
  - exists []. simpl. rewrite !app_nil_r. destruct acc.
    split; [reflexivity | constructor].
  - pose proof (evaluate_scenario_explicit self per_share price s Hr Hs)
      as Hv. cbv zeta in Hv.
    cbn [for_each]. unfold collect at 1. rewrite Hv.
    cbn [bind mbind mret result_bind result_ret].
    match goal with |- context [for_each _ rest ?a] =>
      destruct (IH a) as [vs [Hloop Hvs]] end.
    eexists (_ :: vs). split; [| constructor; [exact Hv | exact Hvs]].
    rewrite Hloop. cbn [fst snd map concat]. now rewrite <- !app_assoc.
Qed.

(** What a completed scenario loop has collected. *)
Lemma collect_returned (self : t) (per_share price : Q)
    (scenarios : list ScenarioProfile.t) :
  forall acc collected,
    for_each (collect self per_share price) scenarios acc =
      Return collected ->
    exists vs,
      collected = (acc.1 ++ vs,
                   acc.2 ++ concat (map ScenarioValuation.warnings vs)) /\
      Forall2 (fun s v => _evaluate_scenario self per_share price s = Return v)
              scenarios vs.
Proof.
  induction scenarios as [| s rest IH]; intros acc collected Hloop.
  - simpl in Hloop. injection Hloop as <-. exists [].
    simpl. rewrite !app_nil_r. destruct acc. split; [reflexivity | constructor].
  - cbn [for_each] in Hloop. unfold collect at 1 in Hloop.
    destruct (_evaluate_scenario self per_share price s) as [e | v] eqn:Hv;
      [discriminate |].
    cbn [bind mbind mret result_bind result_ret] in Hloop.
    destruct (IH _ _ Hloop) as (vs & -> & Hvs).
    exists (v :: vs). split; [| constructor; assumption].
    cbn [fst snd map concat]. now rewrite <- !app_assoc.
Qed.

(** The only exceptions of the scenario loop; the [ValueError] needs a
    scenario without growth rates. *)
Lemma collect_raised (self : t) (per_share price : Q)
    (scenarios : list ScenarioProfile.t) :
  0 <= discount_rate self ->
  forall acc e,
    for_each (collect self per_share price) scenarios acc = Raise e ->
    (e = ValueError
           "Growth rates are required for at least one forecast year." /\
     Exists (fun s => ScenarioProfile.growth_rates s = []) scenarios) \/
    e = OverflowError overflow_text.
Proof.
  intros Hr. induction scenarios as [| s rest IH]; intros acc e Hloop;
    [discriminate |].
  cbn [for_each] in Hloop. unfold collect at 1 in Hloop.
  destruct (_evaluate_scenario self per_share price s) as [e' | v] eqn:Hv.
  - cbn [bind mbind result_bind] in Hloop. injection Hloop as <-.
    destruct (evaluate_scenario_raised self per_share price s e' Hr Hv)
      as [[Hs ->] | [_ ->]]; [left | now right].
    split; [reflexivity | now left].
  - cbn [bind mbind mret result_bind result_ret] in Hloop.
    destruct (IH _ _ Hloop) as [[-> Hex] | ->]; [left | now right].
    split; [reflexivity | now right].
Qed.

Lemma collect_raises (self : t) (per_share price : Q)
    (scenarios : list ScenarioProfile.t) :
  0 <= discount_rate self ->
  Forall (fun s => discount_factor_fits (discount_rate self)
                     (length (ScenarioProfile.growth_rates s))) scenarios ->
  Exists (fun s => ScenarioProfile.growth_rates s = []) scenarios ->
  forall acc,
    for_each (collect self per_share price) scenarios acc =
    Raise (ValueError
             "Growth rates are required for at least one forecast year.").
Proof.
  intros Hr Hfit. induction Hfit as [| s rest Hs _ IH]; intros Hex acc.
  - inversion Hex.
  - cbn [for_each]. unfold collect at 1.
    destruct (ScenarioProfile.growth_rates s) as [| g gs] eqn:Hrates.
    + rewrite (evaluate_scenario_empty self per_share price s Hrates).
      reflexivity.
    + assert (Hok : forecastable self s).
      { split; [rewrite Hrates; discriminate | now rewrite Hrates]. }
      pose proof (evaluate_scenario_explicit self per_share price s Hr Hok)
        as Hv. cbv zeta in Hv.
      rewrite Hv. cbn [bind mbind mret result_bind result_ret].
      apply IH.
      inversion Hex as [? ? Hhead | ? ? Htail]; subst;
        [congruence | exact Htail].
Qed.

Lemma per_share_base_returns (base shares : Q) :
  exists x, per_share_base base shares = Return x.
Proof.
  unfold per_share_base. destruct (truthy shares) eqn:Hs.
  - rewrite div_truthy by exact Hs. eauto.
  - eexists. reflexivity.
Qed.

End AggregateFacts.

Section EvaluateFacts.
Import Py valuation_models Spec Projection.
Import DiscountedCashFlowModel.
Context `{FloatFormat} `{FloatRange}.

(** When the model can value every scenario, [evaluate] returns, and the
    aggregate is assembled from the per-scenario valuations at the
    per-share base and from the normalised weights. *)
Lemma evaluate_returns (self : t) (base price shares : Q)
    (scenarios : list ScenarioProfile.t) :
  0 <= discount_rate self ->
  Forall (forecastable self) scenarios ->
  exists per_share vs,
    per_share_base base shares = Return per_share /\
    Forall2 (fun s v => _evaluate_scenario self per_share price s = Return v)
            scenarios vs /\
    evaluate self base price shares scenarios =
    Return (assembled self price scenarios vs).
Proof.
  intros Hr Hall.
  destruct (per_share_base_returns base shares) as [per_share Hps].
  destruct (collect_returns self per_share price scenarios Hr Hall ([], []))
    as [vs [Hloop Hvs]].
  exists per_share, vs. split; [exact Hps |]. split; [exact Hvs |].
  unfold evaluate. rewrite Hps.
  cbn [mbind result_bind bind]. rewrite Hloop.
  cbn [bind fst snd app]. rewrite probabilities_weights. reflexivity.
Qed.

(** An aggregate that was returned is assembled in that way. *)
Lemma evaluate_returned (self : t) (base price shares : Q)
    (scenarios : list ScenarioProfile.t) (agg : AggregateValuation.t) :
  evaluate self base price shares scenarios = Return agg ->
  exists per_share vs,
    per_share_base base shares = Return per_share /\
    Forall2 (fun s v => _evaluate_scenario self per_share price s = Return v)
            scenarios vs /\
    agg = assembled self price scenarios vs.
Proof.
  intros Hagg.
  destruct (per_share_base_returns base shares) as [per_share Hps].
  unfold evaluate in Hagg. rewrite Hps in Hagg.
  cbn [mbind result_bind bind] in Hagg.
  destruct (for_each (collect self per_share price) scenarios ([], []))
    as [e | collected] eqn:Hloop; [discriminate |].
  destruct (collect_returned self per_share price scenarios _ _ Hloop)
    as (vs & -> & Hvs).
  cbn [bind fst snd app] in Hagg.
  rewrite probabilities_weights in Hagg.
  cbn [bind mret result_ret] in Hagg. injection Hagg as <-.
  exists per_share, vs. split; [exact Hps |]. split; [exact Hvs | reflexivity].
Qed.

Lemma evaluate_returned_forecastable (self : t) (base price shares : Q)
    (scenarios : list ScenarioProfile.t) (agg : AggregateValuation.t) :
  0 <= discount_rate self ->
  evaluate self base price shares scenarios = Return agg ->
  Forall (forecastable self) scenarios.
Proof.
  intros Hr Hagg.
  destruct (evaluate_returned self base price shares scenarios agg Hagg)
    as (ps & vs & _ & Hvs & _).
  clear Hagg.
  induction Hvs as [| s v ss vs Hv _ IH]; [constructor |].
  constructor; [| exact IH].
  now apply (evaluate_scenario_returned self ps price s v).
Qed.

(** The only exceptions of [evaluate]. *)
Lemma evaluate_raised (self : t) (base price shares : Q)
    (scenarios : list ScenarioProfile.t) (e : exn) :
  0 <= discount_rate self ->
  evaluate self base price shares scenarios = Raise e ->
  (e = ValueError
         "Growth rates are required for at least one forecast year." /\
   Exists (fun s => ScenarioProfile.growth_rates s = []) scenarios) \/
  e = OverflowError overflow_text.
Proof.
  intros Hr He.
  destruct (per_share_base_returns base shares) as [per_share Hps].
  unfold evaluate in He. rewrite Hps in He.
  cbn [mbind result_bind bind] in He.
  destruct (for_each (collect self per_share price) scenarios ([], []))
    as [e' | collected] eqn:Hloop.
  - cbn [bind] in He. injection He as <-.
    now apply (collect_raised self per_share price scenarios Hr ([], [])).
  - cbn [bind] in He. rewrite probabilities_weights in He. discriminate.
Qed.

Lemma evaluate_raises (self : t) (base price shares : Q)
    (scenarios : list ScenarioProfile.t) :
  0 <= discount_rate self ->
  Forall (fun s => discount_factor_fits (discount_rate self)
                     (length (ScenarioProfile.growth_rates s))) scenarios ->
  Exists (fun s => ScenarioProfile.growth_rates s = []) scenarios ->
  evaluate self base price shares scenarios =
  Raise (ValueError
           "Growth rates are required for at least one forecast year.").
Proof.
  intros Hr Hfit Hex.
  destruct (per_share_base_returns base shares) as [per_share Hps].
  unfold evaluate. rewrite Hps. cbn [mbind result_bind bind].
  now rewrite (collect_raises self per_share price scenarios Hr Hfit Hex).
Qed.

Lemma scenarios_cases (scenarios : list ScenarioProfile.t) :
  Forall (fun s => ScenarioProfile.growth_rates s <> []) scenarios \/
  Exists (fun s => ScenarioProfile.growth_rates s = []) scenarios.
Proof.
  induction scenarios as [| s rest [IH | IH]].
  - left. constructor.
  - destruct (ScenarioProfile.growth_rates s) as [| g gs] eqn:Hs.
    + right. now left.
    + left. constructor; [rewrite Hs; discriminate | exact IH].
  - right. now right.
Qed.

(** Under a constant growth rate the discounted cash flows are the terms
    of the closed form and the running value is [base*(1+g)^N]. *)
Lemma constant_growth_terms (base g r : Q) (k : nat) :
  0 <= r ->
  forall (s : nat) (v : Q),
    v == base * power (1 + g) s ->
    sum (discount r (S s) (project v (repeat g k))) ==
      series (discounted_term base g r) (S s) k /\
    final_value v (repeat g k) == base * power (1 + g) (s + k).
Proof.
  intros Hr. induction k as [| k IH]; intros s v Hv.
  - split; [reflexivity |]. simpl. now rewrite Nat.add_0_r.
  - cbn [repeat project discount final_value fold_left series].
    destruct (IH (S s) (v * (1 + g))) as [Hsum Hlast].
    { cbn [power]. rewrite Hv. ring. }
    split.
    + rewrite sum_cons, Hsum. unfold discounted_term at 2. rewrite Hv.
      pose proof (power_nonzero (1 + r) s ltac:(lra)).
      cbn [power]. field. split; [assumption | lra].
    + unfold final_value in Hlast. rewrite Hlast.
      now rewrite Nat.add_succ_r.
Qed.

End EvaluateFacts.

(** ** The valuation engine: per-scenario and aggregate properties *)

Section EngineClaims.
Import Py valuation_models Spec Projection.
Import DiscountedCashFlowModel.
Context `{FloatFormat} `{FloatRange}.

(** C1.  For a scenario with a constant growth rate [g] over [N >= 1]
    years and terminal multiple [m], valued by a model whose discount rate
    is [r], the intrinsic value that [_evaluate_scenario] returns is the
    closed form
    [sum_{i=1..N} base*(1+g)^i/(1+r)^i + base*(1+g)^N*m/(1+r)^N].
    A valuation is returned when [(1+r)^N] is a finite float; when it is
    not, the power raises [OverflowError]. *)
Theorem constant_growth_closed_form
    (d mos base price g m prob : Q) (nm : string) (N : nat) :
  (1 <= N)%nat ->
  let self := __init__ d mos in
  let scenario :=
    {| ScenarioProfile.name := nm;
       ScenarioProfile.growth_rates := repeat g N;
       ScenarioProfile.terminal_multiple := m;
       ScenarioProfile.probability := prob |} in
  (forall v,
     _evaluate_scenario self base price scenario = Return v ->
     ScenarioValuation.intrinsic_value v ==
       closed_form base g (discount_rate self) m N) /\
  (discount_factor_fits (discount_rate self) N ->
   exists v, _evaluate_scenario self base price scenario = Return v) /\
  (float_overflow <= power (1 + discount_rate self) N ->
   _evaluate_scenario self base price scenario =
   Raise (OverflowError overflow_text)).
Proof.
  intros HN self scenario.
  pose proof (init_discount_rate_nonneg d mos) as Hr. fold self in Hr.
  assert (Hne : ScenarioProfile.growth_rates scenario <> []).
  { simpl. destruct N; [lia | discriminate]. }
  assert (Hlen : length (ScenarioProfile.growth_rates scenario) = N)
    by apply repeat_length.
  split; [| split].
  - intros v Hv.
    pose proof (evaluate_scenario_returned self base price scenario v Hr Hv)
      as Hok.
    pose proof (evaluate_scenario_explicit self base price scenario Hr Hok)
      as Hex.
    cbv zeta in Hex. rewrite Hv in Hex. injection Hex as ->.
    cbn [ScenarioValuation.intrinsic_value]. rewrite repeat_length.
    change (max d 0) with (discount_rate self).
    destruct (constant_growth_terms base g (discount_rate self) N Hr 0 base)
      as [Hsum Hlast].
    { simpl. ring. }
    unfold closed_form. rewrite Hsum, Hlast. reflexivity.
  - intros Hfit.
    assert (Hok : forecastable self scenario)
      by (split; [exact Hne | now rewrite Hlen]).
    pose proof (evaluate_scenario_explicit self base price scenario Hr Hok)
      as Hex.
    cbv zeta in Hex. eexists. exact Hex.
  - intros Hover. apply evaluate_scenario_overflows; [exact Hr | exact Hne |].
    now rewrite Hlen.
Qed.

(** C6 (amended).  [evaluate] raises the [ValueError] only if some
    scenario has no growth rate, and it does raise it, with the message
    about the missing forecast year, whenever one has and the discount
    factor of every scenario is a finite float; under that condition an
    aggregate is returned when no scenario is empty.  The only other
    exception is the [OverflowError] of a discount factor beyond the float
    range, which an earlier scenario can raise first. *)
Theorem evaluate_invalid_input_policy
    (d m base price shares : Q) (scenarios : list ScenarioProfile.t) :
  let self := __init__ d m in
  let no_years := fun s => ScenarioProfile.growth_rates s = [] in
  let factors_fit :=
    Forall (fun s => discount_factor_fits (discount_rate self)
                       (length (ScenarioProfile.growth_rates s)))
           scenarios in
  ((exists msg,
      evaluate self base price shares scenarios = Raise (ValueError msg)) ->
   Exists no_years scenarios) /\
  (factors_fit ->
   Exists no_years scenarios ->
   evaluate self base price shares scenarios =
   Raise (ValueError
            "Growth rates are required for at least one forecast year.")) /\
  (factors_fit ->
   ~ Exists no_years scenarios ->
   exists agg, evaluate self base price shares scenarios = Return agg) /\
  (forall e,
     evaluate self base price shares scenarios = Raise e ->
     e = ValueError
           "Growth rates are required for at least one forecast year." \/
     e = OverflowError overflow_text).
Proof.
  intros self no_years factors_fit.
  pose proof (init_discount_rate_nonneg d m) as Hr. fold self in Hr.
  split; [| split; [| split]].
  - intros [msg Hmsg].
    destruct (evaluate_raised self base price shares scenarios _ Hr Hmsg)
      as [[_ Hex] | Hover]; [exact Hex | discriminate].
  - intros Hfit Hex. now apply evaluate_raises.
  - intros Hfit Hno.
    destruct (scenarios_cases scenarios) as [Hall | Hex]; [| contradiction].
    assert (Hok : Forall (forecastable self) scenarios).
    { apply Forall_forall. intros s Hs. split.
      - now apply (proj1 (Forall_forall _ _) Hall).
      - now apply (proj1 (Forall_forall _ _) Hfit). }
    destruct (evaluate_returns self base price shares scenarios Hr Hok)
      as (ps & vs & _ & _ & Hev).
    eexists. exact Hev.
  - intros e He.
    destruct (evaluate_raised self base price shares scenarios e Hr He)
      as [[-> _] | ->]; auto.
Qed.

(** C10.  With no scenario at all, [evaluate] returns an aggregate with no
    scenario results, weighted intrinsic value 0, buy price 0 and no
    warnings; the uniform branch is taken and performs no division. *)
Theorem evaluate_no_scenarios (d m base price shares : Q) :
  exists agg,
    evaluate (__init__ d m) base price shares [] = Return agg /\
    AggregateValuation.scenario_results agg = [] /\
    AggregateValuation.weighted_intrinsic_value agg = 0 /\
    AggregateValuation.margin_of_safety_buy_price agg == 0 /\
    AggregateValuation.warnings agg = [] /\
    leb (sum (map ScenarioProfile.probability [])) 0 = true /\
    probabilities [] = Return [].
Proof.
  destruct (evaluate_returns (__init__ d m) base price shares []
              (init_discount_rate_nonneg d m) (Forall_nil_2 _))
    as (ps & vs & _ & Hvs & Hev).
  inversion Hvs; subst. eexists. split; [exact Hev |].
  unfold assembled.
  cbn [AggregateValuation.scenario_results
       AggregateValuation.weighted_intrinsic_value
       AggregateValuation.margin_of_safety_buy_price
       AggregateValuation.warnings].
  repeat split; reflexivity.
Qed.

(** C4 (amended).  The per-share base is [base_cashflow / shares_outstanding]
    whenever [shares_outstanding] is not zero -- negative counts included --
    and the raw [base_cashflow] when it is zero; every scenario of the call
    is valued at that base. *)
Theorem per_share_base_by_truthiness
    (d m base price shares : Q) (scenarios : list ScenarioProfile.t) :
  let self := __init__ d m in
  exists per_share,
    per_share_base base shares = Return per_share /\
    (~ shares == 0 -> per_share = base / shares) /\
    (shares == 0 -> per_share = base) /\
    (forall agg,
       evaluate self base price shares scenarios = Return agg ->
       Forall2 (fun s v =>
                  _evaluate_scenario self per_share price s = Return v)
               scenarios (AggregateValuation.scenario_results agg)).
Proof.
  intros self.
  pose proof (init_discount_rate_nonneg d m) as Hr. fold self in Hr.
  destruct (per_share_base_returns base shares) as [per_share Hps].
  exists per_share. split; [exact Hps |].
  split; [| split].
  - intros Hs. unfold per_share_base in Hps.
    apply truthy_true in Hs. rewrite Hs, div_truthy in Hps by exact Hs.
    now injection Hps.
  - intros Hs. unfold per_share_base in Hps.
    apply truthy_false in Hs. rewrite Hs in Hps. now injection Hps.
  - intros agg Hagg.
    destruct (evaluate_returned self base price shares scenarios agg Hagg)
      as (ps & vs & Hps' & Hvs & ->).
    rewrite Hps in Hps'. injection Hps' as <-. exact Hvs.
Qed.

(** C2 (amended).  The buy price is the intrinsic value times
    [1 - margin]; with the margin in [0, 0.99) it is at most the intrinsic
    value whenever that value is not negative, and with margin 0 the two
    are equal.  This holds for every valuation [_evaluate_scenario] returns
    and for every aggregate [evaluate] returns; they are returned for the
    scenarios the model can value. *)
Theorem buy_price_within_margin
    (d m base price shares : Q) (scenario : ScenarioProfile.t)
    (scenarios : list ScenarioProfile.t) :
  let self := __init__ d m in
  (forall v,
     _evaluate_scenario self base price scenario = Return v ->
     (0 <= m < 99 # 100 ->
      0 <= ScenarioValuation.intrinsic_value v ->
      ScenarioValuation.buy_price v <= ScenarioValuation.intrinsic_value v) /\
     (m == 0 ->
      ScenarioValuation.buy_price v == ScenarioValuation.intrinsic_value v)) /\
  (forall agg,
     evaluate self base price shares scenarios = Return agg ->
     (0 <= m < 99 # 100 ->
      0 <= AggregateValuation.weighted_intrinsic_value agg ->
      AggregateValuation.margin_of_safety_buy_price agg <=
      AggregateValuation.weighted_intrinsic_value agg) /\
     (m == 0 ->
      AggregateValuation.margin_of_safety_buy_price agg ==
      AggregateValuation.weighted_intrinsic_value agg)) /\
  (forecastable self scenario ->
   exists v, _evaluate_scenario self base price scenario = Return v) /\
  (Forall (forecastable self) scenarios ->
   exists agg, evaluate self base price shares scenarios = Return agg).
Proof.
  intros self.
  pose proof (init_discount_rate_nonneg d m) as Hr. fold self in Hr.
  pose proof (init_margin_bounds d m) as Hm. fold self in Hm.
  pose proof (init_margin_zero d m) as Hz. fold self in Hz.
  assert (Hle : forall x, 0 <= x -> x * (1 - margin_of_safety self) <= x).
  { intros x Hx.
    pose proof (Qmult_le_0_compat x (margin_of_safety self) Hx (proj1 Hm)).
    lra. }
  assert (Heq : forall x, m == 0 -> x * (1 - margin_of_safety self) == x).
  { intros x Hm0. rewrite (Hz Hm0). ring. }
  split; [| split; [| split]].
  - intros v Hv.
    rewrite (evaluate_scenario_buy_price self base price scenario v Hr Hv).
    split; [intros _ Hiv; now apply Hle | apply Heq].
  - intros agg Hagg.
    destruct (evaluate_returned self base price shares scenarios agg Hagg)
      as (ps & vs & _ & _ & ->).
    unfold assembled.
    cbn [AggregateValuation.weighted_intrinsic_value
         AggregateValuation.margin_of_safety_buy_price].
    split; [intros _ Hw; now apply Hle | apply Heq].
  - intros Hok.
    pose proof (evaluate_scenario_explicit self base price scenario Hr Hok)
      as Hex.
    cbv zeta in Hex. eexists. exact Hex.
  - intros Hall.
    destruct (evaluate_returns self base price shares scenarios Hr Hall)
      as (ps & vs & _ & _ & Hev).
    eexists. exact Hev.
Qed.


(** C9.  [DividendDiscountModel] inherits constructor and [evaluate]
    unchanged, so on equal inputs it returns what
    [DiscountedCashFlowModel] returns; in [ddm] mode the orchestrator
    passes the trailing dividend with [shares_outstanding = 1], for which
    the per-share base is the dividend itself. *)
Theorem dividend_model_is_dcf_model
    (d m base price shares : Q) (scenarios : list ScenarioProfile.t) :
  DividendDiscountModel.evaluate (DividendDiscountModel.__init__ d m)
    base price shares scenarios =
  DiscountedCashFlowModel.evaluate (DiscountedCashFlowModel.__init__ d m)
    base price shares scenarios /\
  (forall use_owner_earnings snapshot,
     valuation_service.ValuationService.valuate_model "ddm" d m
       use_owner_earnings snapshot scenarios =
     DiscountedCashFlowModel.evaluate (DiscountedCashFlowModel.__init__ d m)
       (data_provider.FinancialSnapshot.dividends_per_share_ttm snapshot)
       (data_provider.FinancialSnapshot.current_price snapshot) 1 scenarios) /\
  (exists per_share,
     per_share_base base 1 = Return per_share /\ per_share == base).
Proof.
  split; [reflexivity |]. split; [reflexivity |].
  eexists. split; [reflexivity |]. field.
Qed.

End EngineClaims.

(** Concrete runs of the engine, with the reference built-ins. *)

Section EngineExamples.
Import Py valuation_models Spec Builtins Examples.
Import DiscountedCashFlowModel.

Lemma constant_growth_closed_form_witness :
  exists v,
    _evaluate_scenario (__init__ (1 # 10) (3 # 10)) 10 100
      {| ScenarioProfile.name := "Base";
         ScenarioProfile.growth_rates := repeat (5 # 100) 3;
         ScenarioProfile.terminal_multiple := 12;
         ScenarioProfile.probability := 1 |} = Return v /\
    ScenarioValuation.intrinsic_value v ==
      closed_form 10 (5 # 100) (discount_rate (__init__ (1 # 10) (3 # 10)))
        12 3.
Proof.
  destruct (constant_growth_closed_form
              (1 # 10) (3 # 10) 10 100 (5 # 100) 12 1 "Base" 3 ltac:(lia))
    as (Hclosed & Hreturns & _).
  destruct Hreturns as [v Hv]; [vm_compute; (discriminate || reflexivity) |].
  exists v. split; [exact Hv | now apply Hclosed].
Defined.

(** A discount rate of 1e200: the square of the discount factor is beyond
    the float range, so the first scenario raises [OverflowError] and the
    scenario without growth rates is never reached. *)
Lemma overflow_before_invalid_input :
  let scenarios :=
    [{| ScenarioProfile.name := "Two years";
        ScenarioProfile.growth_rates := [0; 0];
        ScenarioProfile.terminal_multiple := 12;
        ScenarioProfile.probability := 1 |};
     unforecast_scenario] in
  Exists (fun s => ScenarioProfile.growth_rates s = []) scenarios /\
  evaluate (__init__ (inject_Z (10 ^ 200)) (3 # 10)) 10 100 1 scenarios =
    Raise (OverflowError overflow_text) /\
  ~ (exists msg,
       evaluate (__init__ (inject_Z (10 ^ 200)) (3 # 10)) 10 100 1 scenarios =
       Raise (ValueError msg)).
Proof.
  intros scenarios.
  assert (Hrun :
    evaluate (__init__ (inject_Z (10 ^ 200)) (3 # 10)) 10 100 1 scenarios =
    Raise (OverflowError overflow_text)) by (vm_compute; reflexivity).
  split; [right; left; reflexivity |]. split; [exact Hrun |].
  intros [msg Hmsg]. rewrite Hrun in Hmsg. discriminate.
Qed.

Lemma evaluate_invalid_input_policy_witness :
  evaluate (__init__ (1 # 10) (3 # 10)) 10 100 1
    [base_scenario; unforecast_scenario] =
  Raise (ValueError
           "Growth rates are required for at least one forecast year.").
Proof.
  apply (proj1 (proj2 (evaluate_invalid_input_policy
                         (1 # 10) (3 # 10) 10 100 1
                         [base_scenario; unforecast_scenario]))).
  - repeat constructor; vm_compute; (discriminate || reflexivity).
  - right. left. reflexivity.
Defined.

(** With a negative share count the code divides: the base is not the raw
    cash flow. *)
Lemma per_share_base_negative_shares :
  -2 <= 0 /\
  exists x, per_share_base 10 (-2) = Return x /\ x == -5 /\ ~ x == 10.
Proof.
  split; [lra |]. eexists. split; [vm_compute; reflexivity |].
  split; [reflexivity | discriminate].
Qed.

Lemma per_share_base_by_truthiness_witness :
  exists per_share,
    per_share_base 10 4 = Return per_share /\ per_share = 10 / 4.
Proof.
  destruct (per_share_base_by_truthiness (1 # 10) (3 # 10) 10 100 4
              [base_scenario]) as (per_share & Hps & Hnz & _ & _).
  exists per_share. split; [exact Hps |]. apply Hnz. discriminate.
Defined.

(** A loss-making base: intrinsic value -100, buy price -50 at margin 0.5. *)
Lemma buy_price_above_negative_intrinsic_value :
  0 <= 1 # 2 < 99 # 100 /\
  exists v,
    _evaluate_scenario (__init__ (1 # 10) (1 # 2)) (-10) 0 flat_scenario =
      Return v /\
    ScenarioValuation.intrinsic_value v == -100 /\
    ScenarioValuation.buy_price v == -50 /\
    ~ ScenarioValuation.buy_price v <= ScenarioValuation.intrinsic_value v.
Proof.
  split; [lra |]. eexists. split; [vm_compute; reflexivity |].
  cbn [ScenarioValuation.intrinsic_value ScenarioValuation.buy_price].
  split; [reflexivity |]. split; [reflexivity |].
  apply Qlt_not_le. reflexivity.
Qed.

Lemma buy_price_within_margin_witness :
  exists v,
    _evaluate_scenario (__init__ (1 # 10) 0) 10 100 base_scenario = Return v /\
    ScenarioValuation.buy_price v == ScenarioValuation.intrinsic_value v.
Proof.
  destruct (buy_price_within_margin (1 # 10) 0 10 100 1
              base_scenario [base_scenario])
    as (Hscenario & _ & Hreturns & _).
  destruct Hreturns as [v Hv].
  - split; [discriminate | vm_compute; (discriminate || reflexivity)].
  - exists v. split; [exact Hv |].
    apply (proj2 (Hscenario v Hv)). reflexivity.
Defined.


(** Scenarios that all keep the dataclass default probability 0.33 get
    uniform weights. *)
Example default_probabilities_are_uniform :
  let scenario nm :=
    {| ScenarioProfile.name := nm;
       ScenarioProfile.growth_rates := [5 # 100];
       ScenarioProfile.terminal_multiple := 12;
       ScenarioProfile.probability := ScenarioProfile.default_probability |} in
  exists ws,
    probabilities [scenario "A"; scenario "B"; scenario "C"]%string =
      Return ws /\
    Forall (fun w => w == 1 # 3) ws.
Proof.
  eexists. split; [vm_compute; reflexivity |]. repeat constructor.
Qed.


End EngineExamples.

(** ** Growth-series normalisation *)

Section NormalizeFacts.
Import Py valuation_service Spec Projection.
Context `{FloatParse} `{FloatRange}.

Lemma within_float_range_true (n : Z) :
  within_float_range (VInt n) -> in_float_range (inject_Z n) = true.
Proof. intros Hn. now apply ltb_true. Qed.

Lemma clean_entry_coerce (cleaned : list Q) (v : value) :
  within_float_range v ->
  clean_entry cleaned v = Return (cleaned ++ [coerce v]).
Proof.
  intros Hv. unfold clean_entry, coerce.
  destruct v as [| b | n | x | s | items | items]; simpl; try reflexivity.
  - now rewrite (within_float_range_true n Hv).
  - destruct (float_of_string s); reflexivity.
Qed.

Lemma clean_loop_coerce (items : list value) (cleaned : list Q) :
  Forall within_float_range items ->
  for_each clean_entry items cleaned = Return (cleaned ++ map coerce items).
Proof.
  intros Hall. revert cleaned.
  induction Hall as [| v items Hv _ IH]; intros cleaned.
  - simpl. now rewrite app_nil_r.
  - cbn [for_each]. rewrite clean_entry_coerce by exact Hv. cbn [bind].
    rewrite IH. cbn [map]. now rewrite <- app_assoc.
Qed.

Lemma pad_loop_repeat (n : nat) (cleaned : list Q) (final : Q) :
  last cleaned = Some final ->
  pad_loop n cleaned = Return (cleaned ++ repeat final n).
Proof.
  revert cleaned. induction n as [| n IH]; intros cleaned Hlast.
  - simpl. now rewrite app_nil_r.
  - cbn [pad_loop]. unfold last_item. rewrite Hlast.
    cbn [mbind result_bind bind]. rewrite IH by apply last_snoc.
    cbn [repeat]. now rewrite <- app_assoc.
Qed.

Lemma to_float_number (raw : value) :
  is_number raw = true -> within_float_range raw ->
  to_float raw = Return (coerce raw).
Proof.
  unfold coerce.
  destruct raw; simpl; try discriminate; intros _ Hraw; try reflexivity.
  now rewrite (within_float_range_true n Hraw).
Qed.

(** [float] rejects an integer beyond the float range with an
    [OverflowError], which [_normalize_growth_series] does not catch. *)
Lemma to_float_overflows (n : Z) :
  ~ within_float_range (VInt n) ->
  to_float (VInt n) =
  Raise (OverflowError "int too large to convert to float").
Proof.
  intros Hn. simpl. unfold in_float_range.
  destruct (ltb (Qabs (inject_Z n)) float_overflow) eqn:E; [| reflexivity].
  apply ltb_true in E. contradiction.
Qed.

Lemma within_float_range_dec (v : value) :
  within_float_range v \/ ~ within_float_range v.
Proof.
  destruct v; try (left; exact I). unfold within_float_range.
  destruct (Qlt_le_dec (Qabs (inject_Z n)) float_overflow);
    [now left | right; now apply Qle_not_lt].
Qed.

Lemma clean_loop_overflows (items : list value) :
  ~ Forall within_float_range items ->
  forall cleaned,
    for_each clean_entry items cleaned =
    Raise (OverflowError "int too large to convert to float").
Proof.
  induction items as [| v items IH]; intros Hnot cleaned.
  - destruct Hnot. constructor.
  - cbn [for_each]. destruct (within_float_range_dec v) as [Hv | Hv].
    + rewrite clean_entry_coerce by exact Hv. cbn [bind].
      apply IH. intros Hrest. apply Hnot. now constructor.
    + destruct v; try (destruct Hv; exact I).
      unfold clean_entry. rewrite (to_float_overflows n Hv). reflexivity.
Qed.

Lemma normalize_overflows (raw : value) (years : Z) :
  ~ series_within_float_range raw ->
  _normalize_growth_series raw years =
  Raise (OverflowError "int too large to convert to float").
Proof.
  intros Hraw. unfold _normalize_growth_series.
  destruct raw as [| b | n | x | s | items | items];
    try (destruct Hraw; exact I).
  - cbn [is_number]. rewrite (to_float_overflows n Hraw). reflexivity.
  - cbn [is_number]. destruct items as [| v items].
    + destruct Hraw. constructor.
    + rewrite (clean_loop_overflows _ Hraw). reflexivity.
Qed.

Lemma slice_to_nonneg {A} (n : Z) (xs : list A) :
  (0 <= n)%Z -> slice_to n xs = take (Z.to_nat n) xs.
Proof. intros Hn. unfold slice_to. now rewrite bool_decide_eq_true_2. Qed.

End NormalizeFacts.

Section NormalizeClaims.
Import Py valuation_service Spec Projection.
Context `{FloatParse} `{FloatRange}.


End NormalizeClaims.

Section NormalizeExamples.
Import Py valuation_service Spec Builtins.



(** The growth input of a scenario item: a flat [growth_rate] is
    replicated over the horizon; an explicit [growth_rates] list wins over
    it, is padded with its last entry, and its null entry counts as 0. *)
Example scenario_growth_rates_runs :
  scenario_growth_rates
    [("name"%string, VStr "Bear"); ("growth_rate"%string, VFloat (2 # 100))]
    3 = Return [2 # 100; 2 # 100; 2 # 100] /\
  scenario_growth_rates
    [("growth_rate"%string, VFloat (1 # 2));
     ("growth_rates"%string, VList [VFloat (1 # 10); VNone])]
    3 = Return [1 # 10; 0; 0] /\
  scenario_growth_rates
    [("growth_rates"%string, VList [VInt 1; VStr "2"; VBool true; VInt 4])]
    3 = Return [1; 2; 1].
Proof. repeat split. Qed.

End NormalizeExamples.

(** ** Free-cash-flow history *)

Section FcfFacts.
Import Py data_provider Spec.
Import YahooFinanceDataProvider.

Lemma loc_rows_none (label : string) (rs : list (string * list (option Q))) :
  DataFrame.loc_rows label rs = None <-> label ∉ map fst rs.
Proof.
  induction rs as [| [l cells] rs IH]; simpl.
  - split; [intros _ Hin; inversion Hin | reflexivity].
  - destruct (bool_decide (l = label)) eqn:E.
    + apply bool_decide_eq_true_1 in E. subst l.
      split; [discriminate | intros Hnot; exfalso; apply Hnot; left].
    + apply bool_decide_eq_false_1 in E. rewrite IH. split.
      * intros Hnot Hin. apply elem_of_cons in Hin. destruct Hin; [congruence | auto].
      * intros Hnot Hin. apply Hnot. now right.
Qed.

Lemma loc_contains (label : string) (df : DataFrame.t) :
  DataFrame.contains label df =
  match DataFrame.loc label df with Some _ => true | None => false end.
Proof.
  unfold DataFrame.contains, DataFrame.loc, DataFrame.index.
  destruct (DataFrame.loc_rows label (DataFrame.rows df)) eqn:E.
  - apply bool_decide_eq_true_2.
    destruct (decide (label ∈ map fst (DataFrame.rows df))) as [Hin | Hnot];
      [exact Hin |].
    apply loc_rows_none in Hnot. congruence.
  - apply bool_decide_eq_false_2. now apply loc_rows_none.
Qed.

Lemma map_const_repeat {A} (xs : list A) :
  map (fun _ => 0) xs = repeat 0 (length xs).
Proof. induction xs as [| x xs IH]; simpl; [reflexivity | now rewrite IH]. Qed.

(** The candidate loop of [_row_values] picks the row of the first
    candidate present, and flags whether one was. *)
Lemma row_values_loop_component (df : DataFrame.t) (labels : list string) :
  _row_values_loop df labels =
  (component df labels,
   match first_present df labels with Some _ => true | None => false end).
Proof.
  unfold component, first_present.
  induction labels as [| label labels IH]; simpl.
  - now rewrite map_const_repeat.
  - rewrite loc_contains. destruct (DataFrame.loc label df) eqn:E.
    + simpl. now rewrite E.
    + exact IH.
Qed.

Lemma row_values_component (df : DataFrame.t) (labels : list string) :
  DataFrame.empty df = false ->
  _row_values df labels =
  (component df labels,
   match first_present df labels with Some _ => true | None => false end).
Proof.
  intros Hne. unfold _row_values. rewrite Hne.
  apply row_values_loop_component.
Qed.

Lemma existsb_significant (xs : list Q) :
  existsb (fun value => gtb (Qabs value) (1 # 1000000000)) xs = true <->
  Exists significant xs.
Proof.
  induction xs as [| x xs IH]; simpl.
  - split; [discriminate | intros Hex; inversion Hex].
  - rewrite orb_true_iff, IH, gtb_true. split.
    + intros [Hx | Hxs]; [now left | now right].
    + intros Hex. inversion Hex; subst; [now left | now right].
Qed.

Lemma loc_rows_length (label : string) (df : DataFrame.t)
    (cells : list (option Q)) :
  DataFrame.well_formed df ->
  DataFrame.loc label df = Some cells ->
  length cells = length (DataFrame.columns df).
Proof.
  unfold DataFrame.well_formed, DataFrame.loc.
  induction 1 as [| [l c] rs Hrow _ IH]; simpl; [discriminate |].
  destruct (bool_decide (l = label)); [| exact IH].
  intros [= <-]. exact Hrow.
Qed.

Lemma component_length (df : DataFrame.t) (labels : list string) :
  DataFrame.well_formed df ->
  length (component df labels) = length (DataFrame.columns df).
Proof.
  intros Hwf. unfold component.
  destruct (first_present df labels) as [label |] eqn:E.
  - apply find_some in E. destruct E as [_ E].
    rewrite loc_contains in E.
    destruct (DataFrame.loc label df) as [cells |] eqn:Hloc; [| discriminate].
    simpl. unfold DataFrame.fillna_series. rewrite length_map.
    now apply (loc_rows_length label).
  - apply repeat_length.
Qed.

End FcfFacts.

Section FcfClaims.
Import Py data_provider Spec.
Import YahooFinanceDataProvider.

Lemma map_zip_minus (xs ys : list Q) :
  map (fun oc => oc.1 - oc.2) (zip xs ys) = zip_with Qminus xs ys.
Proof.
  revert ys. induction xs as [| x xs IH]; intros [| y ys]; simpl;
    try reflexivity.
  now rewrite IH.
Qed.

Lemma free_cash_flow_row_values (df : DataFrame.t) :
  DataFrame.empty df = false ->
  _row_values df ["Free Cash Flow"%string] =
  match DataFrame.loc "Free Cash Flow" df with
  | Some row => (DataFrame.fillna_series 0 row, true)
  | None => (repeat 0 (length (DataFrame.columns df)), false)
  end.
Proof.
  intros Hne. rewrite row_values_component by exact Hne.
  unfold component, first_present. simpl. rewrite loc_contains.
  destruct (DataFrame.loc "Free Cash Flow" df) eqn:Hloc;
    [now rewrite Hloc | reflexivity].
Qed.

(** C8.  An empty table gives an empty history.  Otherwise the
    "Free Cash Flow" row is returned when it is present and holds a value
    above 1e-9 in absolute value; failing that, the history is, period by
    period, operating cash flow minus capex, each taken from the first
    candidate label present and counted as 0 in every period when no
    candidate is. *)
Theorem compute_fcf_series_policy (cashflow : DataFrame.t) :
  let fcf_row := DataFrame.loc "Free Cash Flow" cashflow in
  let periods := length (DataFrame.columns cashflow) in
  let operating := component cashflow operating_labels in
  let capex := component cashflow capex_labels in
  (DataFrame.empty cashflow = true -> _compute_fcf_series cashflow = []) /\
  (DataFrame.empty cashflow = false ->
   forall row,
     fcf_row = Some row ->
     Exists significant (DataFrame.fillna_series 0 row) ->
     _compute_fcf_series cashflow = DataFrame.fillna_series 0 row) /\
  (DataFrame.empty cashflow = false ->
   (forall row,
      fcf_row = Some row ->
      ~ Exists significant (DataFrame.fillna_series 0 row)) ->
   _compute_fcf_series cashflow = zip_with Qminus operating capex /\
   (DataFrame.well_formed cashflow ->
    length (_compute_fcf_series cashflow) = periods /\
    forall i o c,
      operating !! i = Some o -> capex !! i = Some c ->
      _compute_fcf_series cashflow !! i = Some (o - c))) /\
  (forall labels,
     first_present cashflow labels = None ->
     component cashflow labels = repeat 0 periods).
Proof.
  intros fcf_row periods operating capex.
  split; [| split; [| split]].
  - intros He. unfold _compute_fcf_series. now rewrite He.
  - intros Hne row Hrow Hsig. unfold _compute_fcf_series. rewrite Hne.
    rewrite free_cash_flow_row_values by exact Hne.
    fold fcf_row. rewrite Hrow.
    apply existsb_significant in Hsig. now rewrite Hsig.
  - intros Hne Hnone.
    assert (Hderived :
      _compute_fcf_series cashflow = zip_with Qminus operating capex).
    { unfold _compute_fcf_series. rewrite Hne.
      rewrite free_cash_flow_row_values by exact Hne. fold fcf_row.
      rewrite !row_values_component by exact Hne.
      fold operating capex.
      destruct fcf_row as [row |] eqn:Hrow.
      - destruct (existsb _ (DataFrame.fillna_series 0 row)) eqn:Hex.
        + apply existsb_significant in Hex. now destruct (Hnone row eq_refl).
        + simpl. apply map_zip_minus.
      - simpl. apply map_zip_minus. }
    split; [exact Hderived |].
    intros Hwf. rewrite Hderived. split.
    + rewrite length_zip_with. unfold operating, capex.
      rewrite !component_length by exact Hwf. apply Nat.min_id.
    + intros i o c Ho Hc. rewrite lookup_zip_with, Ho, Hc. reflexivity.
  - intros labels Hnone. unfold component. now rewrite Hnone.
Qed.

End FcfClaims.

Section FcfExamples.
Import Py data_provider Spec Examples.
Import YahooFinanceDataProvider.

Lemma compute_fcf_series_policy_witness :
  _compute_fcf_series cashflow_table = [100 - -20; 80 - 0] /\
  _compute_fcf_series reported_fcf_table = [70; 0].
Proof.
  split.
  - apply (proj1 (proj1 (proj2 (proj2 (compute_fcf_series_policy
                                         cashflow_table)))
                   eq_refl ltac:(discriminate))).
  - apply (proj1 (proj2 (compute_fcf_series_policy reported_fcf_table))
             eq_refl [Some 70; None] eq_refl).
    left. reflexivity.
Defined.

End FcfExamples.

(** ** Snapshot caching *)

Section CacheClaims.
Import Py data_provider.
Import YahooFinanceDataProvider.

Lemma cache_lookup_fresh (self : t) (normalized : string) (w : World.t)
    (cached : entry) :
  _cache self !! normalized = Some cached ->
  World.clock w (World.reads w) - timestamp cached < cache_ttl self ->
  cache_lookup self normalized w = (Some (payload cached), (World.time w).2).
Proof.
  intros Hentry Hage. unfold cache_lookup. rewrite Hentry. simpl.
  apply ltb_true in Hage. now rewrite Hage.
Qed.

Lemma cache_lookup_expired (self : t) (normalized : string) (w : World.t)
    (cached : entry) :
  _cache self !! normalized = Some cached ->
  cache_ttl self <= World.clock w (World.reads w) - timestamp cached ->
  cache_lookup self normalized w = (None, (World.time w).2).
Proof.
  intros Hentry Hage. unfold cache_lookup. rewrite Hentry. simpl.
  apply ltb_false in Hage. now rewrite Hage.
Qed.

(** A call that returns leaves its result cached under the normalised
    ticker. *)
Lemma get_snapshot_caches (self : t) (ticker : string) (w : World.t)
    (snapshot : FinancialSnapshot.t) (self' : t) (w' : World.t) :
  get_snapshot self ticker w = (Return snapshot, self', w') ->
  exists cached,
    _cache self' !! upper (strip ticker) = Some cached /\
    payload cached = snapshot.
Proof.
  unfold get_snapshot.
  destruct (bool_decide (upper (strip ticker) = ""%string)); [discriminate |].
  unfold cache_lookup.
  destruct (_cache self !! upper (strip ticker)) as [cached |] eqn:Hentry.
  - simpl. destruct (ltb _ (cache_ttl self)).
    + intros [= <- <- <-]. exists cached. split; [exact Hentry | reflexivity].
    + simpl.
      destruct (World.upstream w _ _ ≫= build_snapshot _) as [e | s];
        [discriminate |].
      intros [= <- <- <-]. eexists. split; [apply lookup_insert_eq | reflexivity].
  - simpl.
    destruct (World.upstream w _ _ ≫= build_snapshot _) as [e | s];
      [discriminate |].
    intros [= <- <- <-]. eexists. split; [apply lookup_insert_eq | reflexivity].
Qed.

(** C7.  For a ticker whose normalised form is not empty and is cached:
    while the entry's age is below the TTL, [get_snapshot] returns the
    cached snapshot, leaves the provider as it is and sends nothing
    upstream; once the age has reached the TTL it sends one upstream
    request, returns what is built from the answer and caches it with the
    time of storing.  The entry is there after any call that returned. *)
Theorem get_snapshot_cache_policy (self : t) (ticker : string) (w : World.t)
    (cached : entry) :
  let normalized := upper (strip ticker) in
  let age := World.clock w (World.reads w) - timestamp cached in
  normalized <> ""%string ->
  _cache self !! normalized = Some cached ->
  (age < cache_ttl self ->
   exists w',
     get_snapshot self ticker w = (Return (payload cached), self, w') /\
     World.requests w' = World.requests w) /\
  (cache_ttl self <= age ->
   exists outcome self' w',
     get_snapshot self ticker w = (outcome, self', w') /\
     World.requests w' = World.requests w ++ [normalized] /\
     outcome =
       (World.upstream w normalized (length (World.requests w))
        ≫= build_snapshot normalized) /\
     (forall snapshot,
        outcome = Return snapshot ->
        _cache self' !! normalized =
        Some {| payload := snapshot;
                timestamp := World.clock w (S (World.reads w)) |})) /\
  (forall self0 w0 snapshot self1 w1,
     get_snapshot self0 ticker w0 = (Return snapshot, self1, w1) ->
     exists stored,
       _cache self1 !! normalized = Some stored /\ payload stored = snapshot).
Proof.
  intros normalized age Hticker Hentry. split; [| split].
  - intros Hage. unfold get_snapshot. fold normalized.
    rewrite bool_decide_eq_false_2 by exact Hticker.
    rewrite (cache_lookup_fresh self normalized w cached Hentry Hage).
    eexists. split; reflexivity.
  - intros Hage. unfold get_snapshot. fold normalized.
    rewrite bool_decide_eq_false_2 by exact Hticker.
    rewrite (cache_lookup_expired self normalized w cached Hentry Hage).
    simpl.
    destruct (World.upstream w normalized (length (World.requests w))
              ≫= build_snapshot normalized) as [e | s] eqn:Hout.
    + eexists _, _, _. split; [reflexivity |]. split; [reflexivity |].
      split; [reflexivity |]. intros snapshot [=].
    + eexists _, _, _. split; [reflexivity |]. split; [reflexivity |].
      split; [reflexivity |]. intros snapshot [= <-]. simpl.
      apply lookup_insert_eq.
  - intros self0 w0 snapshot self1 w1. apply get_snapshot_caches.
Qed.

End CacheClaims.

Section CacheExamples.
Import Py data_provider Examples.
Import YahooFinanceDataProvider.

Lemma get_snapshot_cache_policy_witness :
  exists w',
    get_snapshot warm_provider " acme " (world_at 1799) =
      (Return sample_snapshot, warm_provider, w') /\
    World.requests w' = [].
Proof.
  apply (proj1 (get_snapshot_cache_policy warm_provider " acme "
                  (world_at 1799)
                  {| payload := sample_snapshot; timestamp := 0 |}
                  ltac:(vm_compute; discriminate)
                  ltac:(vm_compute; reflexivity))).
  vm_compute. reflexivity.
Defined.

End CacheExamples.

Section CacheRuns.
Import Py data_provider Examples.
Import YahooFinanceDataProvider.

(** At age 1800 = TTL the entry is stale: one upstream request is sent and
    the rebuilt snapshot replaces the entry, stamped with the next clock
    reading. *)
Example get_snapshot_at_ttl_refetches :
  let '(outcome, self', w') :=
    get_snapshot warm_provider "ACME" (world_at 1800) in
  World.requests w' = ["ACME"%string] /\
  (exists snapshot,
     outcome = Return snapshot /\
     FinancialSnapshot.fcf_history snapshot = [100 - -20; 80 - 0] /\
     FinancialSnapshot.current_price snapshot = 101 /\
     _cache self' !! "ACME"%string =
     Some {| payload := snapshot; timestamp := 1800 + 1 |}).
Proof.
  vm_compute. split; [reflexivity |]. eexists. repeat split.
Qed.

End CacheRuns.

(** ** Further properties of the valuation engine *)

Section EngineExtras.
Import Py valuation_models Projection Spec.
Import DiscountedCashFlowModel.
Context `{FloatFormat} `{FloatRange}.

(** X1.  The constructor clamps its parameters: the discount rate is never
    negative and the margin of safety lies in [0, 0.99]; a value already in
    range is kept as it is, a value outside is moved to the nearest bound. *)
Theorem init_clamps_parameters (d m : Q) :
  let self := __init__ d m in
  0 <= discount_rate self /\
  0 <= margin_of_safety self <= 99 # 100 /\
  (0 <= d -> discount_rate self = d) /\
  (d < 0 -> discount_rate self = 0) /\
  (0 <= m <= 99 # 100 -> margin_of_safety self = m) /\
  (m < 0 -> margin_of_safety self = 0) /\
  (99 # 100 < m -> margin_of_safety self = 99 # 100).
Proof.
  intros self. split; [apply init_discount_rate_nonneg |].
  split; [apply init_margin_bounds |].
  unfold self. cbn [__init__ discount_rate margin_of_safety].
  repeat split.
  - intros Hd. destruct (max_cases d 0) as [[? ->] | [? ->]]; [lra | reflexivity].
  - intros Hd. destruct (max_cases d 0) as [[? ->] | [? ->]]; [reflexivity | lra].
  - intros [Hm0 Hm1].
    destruct (min_cases m (99 # 100)) as [[? ->] | [? ->]]; [lra |].
    destruct (max_cases m 0) as [[? ->] | [? ->]]; [lra | reflexivity].
  - intros Hm.
    destruct (min_cases m (99 # 100)) as [[? ->] | [? ->]]; [lra |].
    destruct (max_cases m 0) as [[? ->] | [? ->]]; [reflexivity | lra].
  - intros Hm.
    destruct (min_cases m (99 # 100)) as [[? ->] | [? ->]]; [| lra].
    destruct (max_cases (99 # 100) 0) as [[? ->] | [? ->]]; [lra | reflexivity].
Qed.

(** X2.  A scenario with [N >= 1] growth rates whose discount factor
    [(1+r)^N] is a finite float is valued, and its valuation has one
    projected and one discounted cash flow per year, echoes the growth
    rates, the terminal multiple and the model's margin, takes the terminal
    value from the last projected cash flow, and its intrinsic value is the
    sum of the discounted cash flows plus the discounted terminal value. *)
Theorem scenario_valuation_shape (d mos base price : Q)
    (scenario : ScenarioProfile.t) :
  forecastable (__init__ d mos) scenario ->
  let self := __init__ d mos in
  exists v last_cashflow,
    _evaluate_scenario self base price scenario = Return v /\
    length (ScenarioValuation.cashflows v) =
      length (ScenarioProfile.growth_rates scenario) /\
    length (ScenarioValuation.discounted_cashflows v) =
      length (ScenarioProfile.growth_rates scenario) /\
    ScenarioValuation.effective_growth_rates v =
      ScenarioProfile.growth_rates scenario /\
    ScenarioValuation.terminal_multiple v =
      ScenarioProfile.terminal_multiple scenario /\
    ScenarioValuation.name v = ScenarioProfile.name scenario /\
    ScenarioValuation.margin_of_safety_pct v = margin_of_safety self /\
    last (ScenarioValuation.cashflows v) = Some last_cashflow /\
    ScenarioValuation.terminal_value v =
      last_cashflow * ScenarioProfile.terminal_multiple scenario /\
    ScenarioValuation.discounted_terminal_value v =
      ScenarioValuation.terminal_value v /
      power (1 + discount_rate self)
          (length (ScenarioProfile.growth_rates scenario)) /\
    ScenarioValuation.intrinsic_value v =
      sum (ScenarioValuation.discounted_cashflows v) +
      ScenarioValuation.discounted_terminal_value v.
Proof.
  intros Hok self. pose proof (proj1 Hok) as Hne.
  pose proof (init_discount_rate_nonneg d mos) as Hr. fold self in Hr.
  pose proof (evaluate_scenario_explicit self base price scenario Hr Hok)
    as Hv. cbv zeta in Hv.
  eexists _, _. split; [exact Hv |].
  cbn [ScenarioValuation.cashflows ScenarioValuation.discounted_cashflows
       ScenarioValuation.effective_growth_rates
       ScenarioValuation.terminal_multiple ScenarioValuation.name
       ScenarioValuation.margin_of_safety_pct ScenarioValuation.terminal_value
       ScenarioValuation.discounted_terminal_value
       ScenarioValuation.intrinsic_value].
  rewrite discount_length, project_length.
  repeat split. now apply project_last.
Qed.

(** X3.  Upside and downside of a scenario the model can value (at least
    one growth rate, discount factor a finite float): with a current price
    of 0 both are 0 and no division takes place; otherwise upside is
    [intrinsic / price - 1] and downside is [buy_price / price - 1], so
    that [downside + 1 = (upside + 1) * (1 - margin)]. *)
Theorem upside_downside_relation (d mos base price : Q)
    (scenario : ScenarioProfile.t) :
  forecastable (__init__ d mos) scenario ->
  let self := __init__ d mos in
  exists v,
    _evaluate_scenario self base price scenario = Return v /\
    (price == 0 ->
     ScenarioValuation.upside v = 0 /\ ScenarioValuation.downside v = 0) /\
    (~ price == 0 ->
     ScenarioValuation.upside v =
       ScenarioValuation.intrinsic_value v / price - 1 /\
     ScenarioValuation.downside v =
       ScenarioValuation.buy_price v / price - 1 /\
     ScenarioValuation.downside v + 1 ==
       (ScenarioValuation.upside v + 1) * (1 - margin_of_safety self)).
Proof.
  intros Hok self. pose proof (proj1 Hok) as Hne.
  pose proof (init_discount_rate_nonneg d mos) as Hr. fold self in Hr.
  pose proof (evaluate_scenario_explicit self base price scenario Hr Hok)
    as Hv. cbv zeta in Hv.
  eexists. split; [exact Hv |].
  cbn [ScenarioValuation.upside ScenarioValuation.downside
       ScenarioValuation.intrinsic_value ScenarioValuation.buy_price].
  split.
  - intros Hp. apply truthy_false in Hp. rewrite Hp. split; reflexivity.
  - intros Hp. pose proof Hp as Hp'. apply truthy_true in Hp'. rewrite Hp'.
    split; [reflexivity |]. split; [reflexivity |]. field.
    split; [apply power_nonzero; lra | exact Hp].
Qed.

Lemma rate_warnings_nil (nm : string) (rate : Q) :
  rate_warnings nm rate = [] <-> conservative_rate rate.
Proof.
  unfold rate_warnings, conservative_rate.
  destruct (gtb rate (15 # 100)) eqn:Hhi, (ltb rate (- (1 # 10))) eqn:Hlo;
    cbn [app];
    try apply gtb_true in Hhi; try apply gtb_false in Hhi;
    try apply ltb_true in Hlo; try apply ltb_false in Hlo;
    (split; [try discriminate; intros _; lra | try reflexivity; lra]).
Qed.

Lemma multiple_warnings_nil (nm : string) (m : Q) :
  multiple_warnings nm m = [] <-> usual_multiple m.
Proof.
  unfold multiple_warnings, usual_multiple.
  destruct (gtb m 20) eqn:Hhi, (ltb m 5) eqn:Hlo;
    cbn [app];
    try apply gtb_true in Hhi; try apply gtb_false in Hhi;
    try apply ltb_true in Hlo; try apply ltb_false in Hlo;
    (split; [try discriminate; intros _; lra | try reflexivity; lra]).
Qed.

Lemma concat_rate_warnings_nil (nm : string) (rates : list Q) :
  concat (map (rate_warnings nm) rates) = [] <->
  Forall conservative_rate rates.
Proof.
  induction rates as [| g rates IH]; simpl.
  - split; [constructor | reflexivity].
  - split.
    + intros Hnil. apply app_eq_nil in Hnil. destruct Hnil as [Hg Hrest].
      constructor; [now apply (rate_warnings_nil nm) | now apply IH].
    + intros Hall. inversion Hall as [| ? ? Hg Hrest]; subst.
      apply (rate_warnings_nil nm) in Hg. apply IH in Hrest.
      now rewrite Hg, Hrest.
Qed.

(** X4.  A scenario the model can value (at least one growth rate,
    discount factor a finite float) draws no warning exactly when every
    growth rate lies in [-0.10, 0.15] and the terminal multiple lies in
    [5, 20]. *)
Theorem scenario_warnings_iff_out_of_range (d mos base price : Q)
    (scenario : ScenarioProfile.t) :
  forecastable (__init__ d mos) scenario ->
  exists v,
    _evaluate_scenario (__init__ d mos) base price scenario = Return v /\
    (ScenarioValuation.warnings v = [] <->
     Forall conservative_rate (ScenarioProfile.growth_rates scenario) /\
     usual_multiple (ScenarioProfile.terminal_multiple scenario)).
Proof.
  intros Hok.
  pose proof (init_discount_rate_nonneg d mos) as Hr.
  pose proof (evaluate_scenario_explicit _ base price scenario Hr Hok)
    as Hv. cbv zeta in Hv.
  eexists. split; [exact Hv |].
  cbn [ScenarioValuation.warnings]. rewrite fromkeys_nil.
  rewrite <- concat_rate_warnings_nil, <- multiple_warnings_nil.
  split.
  - intros Hnil. apply app_eq_nil in Hnil. exact Hnil.
  - intros [-> ->]. reflexivity.
Qed.

End EngineExtras.

Section ValueExtras.
Import Py valuation_models Projection Spec.
Import DiscountedCashFlowModel.
Context `{FloatFormat} `{FloatRange}.

(** X5.  Warnings are de-duplicated at both levels.  When the model can
    value every scenario (at least one growth rate each, discount factors
    finite floats), [evaluate] returns an aggregate in which a scenario's
    warning list has no repeats, the aggregate's has none either, and a
    message is in the aggregate list exactly when some scenario result
    carries it. *)
Theorem warnings_are_deduplicated (d mos base price shares : Q)
    (scenarios : list ScenarioProfile.t) :
  Forall (forecastable (__init__ d mos)) scenarios ->
  exists agg,
    evaluate (__init__ d mos) base price shares scenarios = Return agg /\
    NoDup (AggregateValuation.warnings agg) /\
    Forall (fun v => NoDup (ScenarioValuation.warnings v))
           (AggregateValuation.scenario_results agg) /\
    (forall w,
       w ∈ AggregateValuation.warnings agg <->
       exists v,
         v ∈ AggregateValuation.scenario_results agg /\
         w ∈ ScenarioValuation.warnings v).
Proof.
  intros Hall.
  pose proof (init_discount_rate_nonneg d mos) as Hr.
  destruct (evaluate_returns _ base price shares scenarios Hr Hall)
    as (ps & vs & _ & Hvs & Hev).
  eexists. split; [exact Hev |]. unfold assembled.
  cbn [AggregateValuation.warnings AggregateValuation.scenario_results].
  split; [apply fromkeys_NoDup |]. split.
  - clear Hev. induction Hvs as [| s v ss vs Hv _ IH]; constructor.
    + inversion Hall as [| ? ? Hs _]; subst.
      rewrite (evaluate_scenario_explicit _ ps price s Hr Hs) in Hv.
      injection Hv as <-. apply fromkeys_NoDup.
    + apply IH. now inversion Hall.
  - intros w. rewrite fromkeys_elem, elem_of_concat. split.
    + intros (ws & Hw & Hws). apply list_elem_of_fmap in Hws.
      destruct Hws as (v & -> & Hv). eauto.
    + intros (v & Hv & Hw). exists (ScenarioValuation.warnings v).
      split; [exact Hw |]. apply list_elem_of_fmap. eauto.
Qed.

(** X6.  For a scenario the model can value (at least one growth rate,
    discount factor a finite float): with a non-negative base cash flow,
    growth rates of at least -100% and a non-negative terminal multiple,
    the scenario is valued, every projected and discounted cash flow is
    non-negative, so is the intrinsic value, and the buy price lies between
    0 and the intrinsic value. *)
Theorem nonnegative_inputs_nonnegative_value (d mos base price : Q)
    (scenario : ScenarioProfile.t) :
  forecastable (__init__ d mos) scenario ->
  0 <= base ->
  Forall (fun g => -1 <= g) (ScenarioProfile.growth_rates scenario) ->
  0 <= ScenarioProfile.terminal_multiple scenario ->
  exists v,
    _evaluate_scenario (__init__ d mos) base price scenario = Return v /\
    Forall (fun c => 0 <= c) (ScenarioValuation.cashflows v) /\
    Forall (fun c => 0 <= c) (ScenarioValuation.discounted_cashflows v) /\
    0 <= ScenarioValuation.terminal_value v /\
    0 <= ScenarioValuation.intrinsic_value v /\
    0 <= ScenarioValuation.buy_price v <= ScenarioValuation.intrinsic_value v.
Proof.
  intros Hok Hbase Hrates Hm.
  pose proof (init_discount_rate_nonneg d mos) as Hr.
  pose proof (init_margin_bounds d mos) as Hmos.
  pose proof (evaluate_scenario_explicit _ base price scenario Hr Hok)
    as Hv. cbv zeta in Hv.
  eexists. split; [exact Hv |].
  cbn [ScenarioValuation.cashflows ScenarioValuation.discounted_cashflows
       ScenarioValuation.terminal_value ScenarioValuation.intrinsic_value
       ScenarioValuation.buy_price].
  destruct (project_nonneg base _ Hbase Hrates) as [Hcfs Hlast].
  pose proof (discount_nonneg _ 1 _ Hr Hcfs) as Hdisc.
  pose proof (sum_nonneg _ Hdisc) as Hsum.
  set (r := discount_rate (__init__ d mos)) in *.
  set (rates := ScenarioProfile.growth_rates scenario) in *.
  assert (Htv : 0 <= final_value base rates *
                     ScenarioProfile.terminal_multiple scenario)
    by (apply Qmult_le_0_compat; assumption).
  assert (Hdtv : 0 <= final_value base rates *
                      ScenarioProfile.terminal_multiple scenario /
                      power (1 + r) (length rates)).
  { apply Qle_shift_div_l; [apply power_pos; lra | lra]. }
  split; [exact Hcfs |]. split; [exact Hdisc |]. split; [exact Htv |].
  split; [lra |].
  set (iv := sum (discount r 1 (project base rates)) + _) in *.
  assert (Hiv : 0 <= iv) by (unfold iv; lra).
  set (mm := margin_of_safety (__init__ d mos)) in *.
  pose proof (Qmult_le_0_compat iv mm Hiv (proj1 Hmos)).
  pose proof (Qmult_le_0_compat iv (1 - mm) Hiv ltac:(lra)).
  lra.
Qed.

(** X7.  A discount rate of 0 or below is used as 0: each discounted cash
    flow equals the projected one, the discounted terminal value equals the
    terminal value, and the intrinsic value is their plain sum. *)
Theorem nonpositive_discount_rate_is_zero (d mos base price : Q)
    (scenario : ScenarioProfile.t) :
  ScenarioProfile.growth_rates scenario <> [] ->
  d <= 0 ->
  exists v,
    _evaluate_scenario (__init__ d mos) base price scenario = Return v /\
    Forall2 Qeq (ScenarioValuation.discounted_cashflows v)
                (ScenarioValuation.cashflows v) /\
    ScenarioValuation.discounted_terminal_value v ==
      ScenarioValuation.terminal_value v /\
    ScenarioValuation.intrinsic_value v ==
      sum (ScenarioValuation.cashflows v) + ScenarioValuation.terminal_value v.
Proof.
  intros Hne Hd.
  pose proof (init_discount_rate_nonneg d mos) as Hr.
  assert (Hzero : discount_rate (__init__ d mos) == 0).
  { cbn [__init__ discount_rate].
    destruct (max_cases d 0) as [[_ ->] | [Hle ->]]; [reflexivity | lra]. }
  assert (Hok : forecastable (__init__ d mos) scenario)
    by (split; [exact Hne | now apply discount_factor_fits_zero]).
  pose proof (evaluate_scenario_explicit _ base price scenario Hr Hok)
    as Hv. cbv zeta in Hv.
  eexists. split; [exact Hv |].
  cbn [ScenarioValuation.cashflows ScenarioValuation.discounted_cashflows
       ScenarioValuation.terminal_value ScenarioValuation.intrinsic_value
       ScenarioValuation.discounted_terminal_value].
  pose proof (discount_zero_rate _ 1
                (project base (ScenarioProfile.growth_rates scenario)) Hzero)
    as Hdisc.
  assert (Hdtv :
    final_value base (ScenarioProfile.growth_rates scenario) *
    ScenarioProfile.terminal_multiple scenario /
    power (1 + discount_rate (__init__ d mos))
        (length (ScenarioProfile.growth_rates scenario)) ==
    final_value base (ScenarioProfile.growth_rates scenario) *
    ScenarioProfile.terminal_multiple scenario).
  { rewrite (power_one _ _ Hzero). field. }
  split; [exact Hdisc |]. split; [exact Hdtv |].
  rewrite Hdtv. apply Qplus_inj_r. now apply sum_pointwise.
Qed.

(** X8.  Discounting never enlarges a cash flow: in the valuation of a
    scenario the model can value (at least one growth rate, discount factor
    a finite float) each discounted cash flow is at most the projected one
    in absolute value, and so is the discounted terminal value against the
    terminal value. *)
Theorem discounting_never_increases_magnitude (d mos base price : Q)
    (scenario : ScenarioProfile.t) :
  forecastable (__init__ d mos) scenario ->
  exists v,
    _evaluate_scenario (__init__ d mos) base price scenario = Return v /\
    Forall2 (fun c dc => Qabs dc <= Qabs c)
            (ScenarioValuation.cashflows v)
            (ScenarioValuation.discounted_cashflows v) /\
    Qabs (ScenarioValuation.discounted_terminal_value v) <=
      Qabs (ScenarioValuation.terminal_value v).
Proof.
  intros Hok.
  pose proof (init_discount_rate_nonneg d mos) as Hr.
  pose proof (evaluate_scenario_explicit _ base price scenario Hr Hok)
    as Hv. cbv zeta in Hv.
  eexists. split; [exact Hv |].
  cbn [ScenarioValuation.cashflows ScenarioValuation.discounted_cashflows
       ScenarioValuation.terminal_value
       ScenarioValuation.discounted_terminal_value].
  split; [now apply discount_magnitude |].
  apply divide_magnitude, power_ge_one. lra.
Qed.

(** X9.  The valuation is linear in the base cash flow: for a scenario
    the model can value (at least one growth rate, discount factor a finite
    float), multiplying the base by [k] multiplies the intrinsic value, the
    buy price and the terminal value by [k]. *)
Theorem intrinsic_value_scales_with_base (d mos base price k : Q)
    (scenario : ScenarioProfile.t) :
  forecastable (__init__ d mos) scenario ->
  exists v vk,
    _evaluate_scenario (__init__ d mos) base price scenario = Return v /\
    _evaluate_scenario (__init__ d mos) (k * base) price scenario =
      Return vk /\
    ScenarioValuation.intrinsic_value vk ==
      k * ScenarioValuation.intrinsic_value v /\
    ScenarioValuation.buy_price vk == k * ScenarioValuation.buy_price v /\
    ScenarioValuation.terminal_value vk ==
      k * ScenarioValuation.terminal_value v.
Proof.
  intros Hok.
  pose proof (init_discount_rate_nonneg d mos) as Hr.
  pose proof (evaluate_scenario_explicit _ base price scenario Hr Hok)
    as Hv. cbv zeta in Hv.
  pose proof (evaluate_scenario_explicit _ (k * base) price scenario Hr Hok)
    as Hvk. cbv zeta in Hvk.
  eexists _, _. split; [exact Hv |]. split; [exact Hvk |].
  cbn [ScenarioValuation.intrinsic_value ScenarioValuation.buy_price
       ScenarioValuation.terminal_value].
  destruct (project_scaled k (k * base) base
              (ScenarioProfile.growth_rates scenario) ltac:(reflexivity))
    as [Hcfs Hlast].
  pose proof (sum_scaled k _ _ (discount_scaled k _ 1 _ _ Hr Hcfs)) as Hsum.
  set (r := discount_rate (__init__ d mos)) in *.
  pose proof (power_nonzero (1 + r)
                (length (ScenarioProfile.growth_rates scenario))
                ltac:(lra)) as Hp.
  assert (Hiv :
    sum (discount r 1 (project (k * base)
                         (ScenarioProfile.growth_rates scenario))) +
    final_value (k * base) (ScenarioProfile.growth_rates scenario) *
    ScenarioProfile.terminal_multiple scenario /
    power (1 + r) (length (ScenarioProfile.growth_rates scenario)) ==
    k * (sum (discount r 1 (project base
                              (ScenarioProfile.growth_rates scenario))) +
         final_value base (ScenarioProfile.growth_rates scenario) *
         ScenarioProfile.terminal_multiple scenario /
         power (1 + r) (length (ScenarioProfile.growth_rates scenario)))).
  { rewrite Hsum, Hlast. field. exact Hp. }
  split; [exact Hiv |]. split.
  - rewrite Hiv. ring.
  - rewrite Hlast. ring.
Qed.

End ValueExtras.

Section WeightExtras.
Import Py valuation_models Projection Spec.
Import DiscountedCashFlowModel.
Context `{FloatFormat} `{FloatRange}.

Lemma weights_nonneg (scenarios : list ScenarioProfile.t) :
  Forall (fun s => 0 <= ScenarioProfile.probability s) scenarios ->
  Forall (fun w => 0 <= w) (weights scenarios).
Proof.
  intros Hall. unfold weights. destruct (leb _ 0) eqn:Htotal.
  - apply Forall_forall. intros w Hw. apply list_elem_of_fmap in Hw.
    destruct Hw as (s & -> & Hs).
    destruct scenarios as [| s0 rest]; [inversion Hs |].
    pose proof (len_positive s0 rest).
    apply Qle_shift_div_l; lra.
  - apply leb_false in Htotal.
    apply Forall_forall. intros w Hw. apply list_elem_of_fmap in Hw.
    destruct Hw as (s & -> & Hs).
    pose proof (proj1 (Forall_forall _ _) Hall s Hs) as Hp. cbv beta in Hp.
    apply Qle_shift_div_l; lra.
Qed.

Lemma weighted_sum_cons (v : ScenarioValuation.t)
    (vs : list ScenarioValuation.t) (w : Q) (ws : list Q) :
  weighted_sum (v :: vs) (w :: ws) ==
  ScenarioValuation.intrinsic_value v * w + weighted_sum vs ws.
Proof. unfold weighted_sum. cbn [zip zip_with map fst snd]. apply sum_cons. Qed.

Lemma weighted_sum_bounds (lo hi : Q) (vs : list ScenarioValuation.t) :
  Forall (fun v => lo <= ScenarioValuation.intrinsic_value v <= hi) vs ->
  forall ws,
    length ws = length vs ->
    Forall (fun w => 0 <= w) ws ->
    lo * sum ws <= weighted_sum vs ws <= hi * sum ws.
Proof.
  induction 1 as [| v vs [Hlo Hhi] _ IH]; intros ws Hlen Hws.
  - destruct ws; [| discriminate]. unfold weighted_sum, sum. simpl. lra.
  - destruct ws as [| w ws]; [discriminate |].
    inversion Hws as [| ? ? Hw Hws']; subst.
    injection Hlen as Hlen.
    destruct (IH ws Hlen Hws') as [IHlo IHhi].
    rewrite weighted_sum_cons, sum_cons.
    assert (Hl : 0 <= (ScenarioValuation.intrinsic_value v - lo) * w)
      by (apply Qmult_le_0_compat; lra).
    assert (Hh : 0 <= (hi - ScenarioValuation.intrinsic_value v) * w)
      by (apply Qmult_le_0_compat; lra).
    lra.
Qed.

(** X10.  When the model can value every scenario (at least one growth
    rate each, discount factors finite floats) and the probabilities are
    non-negative, the weighted intrinsic value is an average: it lies
    between any lower and upper bound of the scenarios' intrinsic
    values. *)
Theorem weighted_value_within_scenario_range (d mos base price shares : Q)
    (scenarios : list ScenarioProfile.t) :
  scenarios <> [] ->
  Forall (forecastable (__init__ d mos)) scenarios ->
  Forall (fun s => 0 <= ScenarioProfile.probability s) scenarios ->
  exists agg,
    evaluate (__init__ d mos) base price shares scenarios = Return agg /\
    forall lo hi,
      Forall (fun v => lo <= ScenarioValuation.intrinsic_value v <= hi)
             (AggregateValuation.scenario_results agg) ->
      lo <= AggregateValuation.weighted_intrinsic_value agg <= hi.
Proof.
  intros Hne Hall Hprob.
  pose proof (init_discount_rate_nonneg d mos) as Hr.
  destruct (evaluate_returns _ base price shares scenarios Hr Hall)
    as (ps & vs & _ & Hvs & Hev).
  eexists. split; [exact Hev |]. unfold assembled.
  cbn [AggregateValuation.scenario_results
       AggregateValuation.weighted_intrinsic_value].
  intros lo hi Hbounds.
  pose proof (weighted_sum_bounds lo hi vs Hbounds (weights scenarios)) as Hb.
  rewrite weights_length, (Forall2_length _ _ _ Hvs) in Hb.
  specialize (Hb eq_refl (weights_nonneg scenarios Hprob)).
  rewrite (weights_sum scenarios Hne) in Hb. lra.
Qed.

(** X11.  With a single scenario that the model can value (at least one
    growth rate, discount factor a finite float) the weighted intrinsic
    value is that scenario's intrinsic value, whatever its probability
    (zero and negative included). *)
Theorem single_scenario_weight_is_one (d mos base price shares : Q)
    (scenario : ScenarioProfile.t) :
  forecastable (__init__ d mos) scenario ->
  exists agg v,
    evaluate (__init__ d mos) base price shares [scenario] = Return agg /\
    AggregateValuation.scenario_results agg = [v] /\
    AggregateValuation.weighted_intrinsic_value agg ==
      ScenarioValuation.intrinsic_value v.
Proof.
  intros Hne.
  pose proof (init_discount_rate_nonneg d mos) as Hr.
  destruct (evaluate_returns _ base price shares [scenario] Hr
              ltac:(constructor; [exact Hne | constructor]))
    as (ps & vs & _ & Hvs & Hev).
  inversion Hvs as [| ? v ? vs' Hv Hrest]; subst. inversion Hrest; subst.
  eexists _, v. split; [exact Hev |]. unfold assembled.
  split; [reflexivity |].
  cbn [AggregateValuation.weighted_intrinsic_value].
  pose proof (weights_sum [scenario] ltac:(discriminate)) as Hsum.
  pose proof (weights_length [scenario]) as Hlen.
  destruct (weights [scenario]) as [| w [| w' ws]]; try discriminate.
  rewrite sum_cons in Hsum. unfold sum in Hsum. simpl in Hsum.
  rewrite weighted_sum_cons. unfold weighted_sum, sum. simpl.
  assert (Hw : w == 1) by lra. rewrite Hw. ring.
Qed.

End WeightExtras.

Section EngineExtraExamples.
Import Py valuation_models Projection Spec Builtins Examples.
Import DiscountedCashFlowModel.

Lemma init_clamps_parameters_witness :
  discount_rate (__init__ (- (1 # 2)) 2) = 0 /\
  margin_of_safety (__init__ (- (1 # 2)) 2) = 99 # 100.
Proof.
  destruct (init_clamps_parameters (- (1 # 2)) 2)
    as (_ & _ & _ & Hd & _ & _ & Hm).
  split; [apply Hd | apply Hm]; reflexivity.
Defined.

Lemma scenario_valuation_shape_witness :
  exists v,
    _evaluate_scenario (__init__ (1 # 10) (3 # 10)) 10 100 base_scenario =
      Return v /\
    length (ScenarioValuation.cashflows v) = 3%nat /\
    length (ScenarioValuation.discounted_cashflows v) = 3%nat.
Proof.
  destruct (scenario_valuation_shape (1 # 10) (3 # 10) 10 100 base_scenario
              ltac:(split; [discriminate | vm_compute; (discriminate || reflexivity)]))
    as (v & x & Hv & Hc & Hd & _).
  exists v. split; [exact Hv |]. split; [exact Hc | exact Hd].
Defined.

Lemma upside_downside_relation_witness :
  exists v,
    _evaluate_scenario (__init__ (1 # 10) (3 # 10)) 10 0 base_scenario =
      Return v /\
    ScenarioValuation.upside v = 0 /\ ScenarioValuation.downside v = 0.
Proof.
  destruct (upside_downside_relation (1 # 10) (3 # 10) 10 0 base_scenario
              ltac:(split; [discriminate | vm_compute; (discriminate || reflexivity)]))
    as (v & Hv & Hzero & _).
  exists v. split; [exact Hv |]. apply Hzero. reflexivity.
Defined.

Lemma scenario_warnings_iff_out_of_range_witness :
  exists v,
    _evaluate_scenario (__init__ (1 # 10) (3 # 10)) 10 100 base_scenario =
      Return v /\
    ScenarioValuation.warnings v = [].
Proof.
  destruct (scenario_warnings_iff_out_of_range (1 # 10) (3 # 10) 10 100
              base_scenario
              ltac:(split; [discriminate | vm_compute; (discriminate || reflexivity)]))
    as (v & Hv & Hiff).
  exists v. split; [exact Hv |]. apply Hiff. split.
  - repeat constructor; discriminate.
  - split; discriminate.
Defined.

Lemma warnings_are_deduplicated_witness :
  exists agg,
    evaluate (__init__ (1 # 10) (3 # 10)) 10 100 1
      [base_scenario; bull_scenario] = Return agg /\
    NoDup (AggregateValuation.warnings agg).
Proof.
  destruct (warnings_are_deduplicated (1 # 10) (3 # 10) 10 100 1
              [base_scenario; bull_scenario])
    as (agg & Hagg & Hnd & _).
  - repeat constructor; vm_compute; (discriminate || reflexivity).
  - exists agg. split; [exact Hagg | exact Hnd].
Defined.

Lemma nonnegative_inputs_nonnegative_value_witness :
  exists v,
    _evaluate_scenario (__init__ (1 # 10) (3 # 10)) 10 100 base_scenario =
      Return v /\
    0 <= ScenarioValuation.buy_price v <= ScenarioValuation.intrinsic_value v.
Proof.
  destruct (nonnegative_inputs_nonnegative_value (1 # 10) (3 # 10) 10 100
              base_scenario)
    as (v & Hv & _ & _ & _ & _ & Hbuy).
  - split; [discriminate | vm_compute; (discriminate || reflexivity)].
  - discriminate.
  - repeat constructor; discriminate.
  - discriminate.
  - exists v. split; [exact Hv | exact Hbuy].
Defined.

Lemma nonpositive_discount_rate_is_zero_witness :
  exists v,
    _evaluate_scenario (__init__ (- (1 # 20)) (3 # 10)) 10 100 base_scenario =
      Return v /\
    ScenarioValuation.discounted_terminal_value v ==
      ScenarioValuation.terminal_value v.
Proof.
  destruct (nonpositive_discount_rate_is_zero (- (1 # 20)) (3 # 10) 10 100
              base_scenario)
    as (v & Hv & _ & Hdtv & _).
  - discriminate.
  - discriminate.
  - exists v. split; [exact Hv | exact Hdtv].
Defined.

Lemma discounting_never_increases_magnitude_witness :
  exists v,
    _evaluate_scenario (__init__ (1 # 10) (3 # 10)) (-10) 100 base_scenario =
      Return v /\
    Qabs (ScenarioValuation.discounted_terminal_value v) <=
      Qabs (ScenarioValuation.terminal_value v).
Proof.
  destruct (discounting_never_increases_magnitude (1 # 10) (3 # 10) (-10) 100
              base_scenario
              ltac:(split; [discriminate | vm_compute; (discriminate || reflexivity)]))
    as (v & Hv & _ & Hdtv).
  exists v. split; [exact Hv | exact Hdtv].
Defined.

Lemma intrinsic_value_scales_with_base_witness :
  exists v vk,
    _evaluate_scenario (__init__ (1 # 10) (3 # 10)) 10 100 base_scenario =
      Return v /\
    _evaluate_scenario (__init__ (1 # 10) (3 # 10)) ((1 # 4) * 10) 100
      base_scenario = Return vk /\
    ScenarioValuation.intrinsic_value vk ==
      (1 # 4) * ScenarioValuation.intrinsic_value v.
Proof.
  destruct (intrinsic_value_scales_with_base (1 # 10) (3 # 10) 10 100 (1 # 4)
              base_scenario
              ltac:(split; [discriminate | vm_compute; (discriminate || reflexivity)]))
    as (v & vk & Hv & Hvk & Hiv & _).
  exists v, vk. split; [exact Hv |]. split; [exact Hvk | exact Hiv].
Defined.

Lemma weighted_value_within_scenario_range_witness :
  exists agg,
    evaluate (__init__ (1 # 10) (3 # 10)) 10 100 1
      [base_scenario; bull_scenario] = Return agg /\
    100 <= AggregateValuation.weighted_intrinsic_value agg <= 200.
Proof.
  destruct (weighted_value_within_scenario_range (1 # 10) (3 # 10) 10 100 1
              [base_scenario; bull_scenario])
    as (agg & Hagg & Hrange).
  - discriminate.
  - repeat constructor; vm_compute; (discriminate || reflexivity).
  - repeat constructor; discriminate.
  - exists agg. split; [exact Hagg |]. apply Hrange.
    vm_compute in Hagg. injection Hagg as <-.
    repeat constructor; discriminate.
Defined.

Lemma single_scenario_weight_is_one_witness :
  exists agg v,
    evaluate (__init__ (1 # 10) (3 # 10)) 10 100 1 [flat_scenario] =
      Return agg /\
    AggregateValuation.scenario_results agg = [v] /\
    AggregateValuation.weighted_intrinsic_value agg ==
      ScenarioValuation.intrinsic_value v.
Proof.
  apply (single_scenario_weight_is_one (1 # 10) (3 # 10) 10 100 1
           flat_scenario).
  split; [discriminate | vm_compute; (discriminate || reflexivity)].
Defined.

End EngineExtraExamples.

(** ** Further properties of the snapshot provider *)

Section TableExtras.
Import Py data_provider Spec.
Import YahooFinanceDataProvider.

(** X14.  FX scaling multiplies every entry by the factor and keeps the
    length; with factor 1 (or an empty series) the series is returned
    untouched. *)
Theorem scale_series_scales (series : list Q) (factor : Q) :
  length (_scale_series series factor) = length series /\
  Forall2 (fun x y => y == x * factor) series (_scale_series series factor) /\
  (factor == 1 -> _scale_series series factor = series) /\
  _scale_series [] factor = [].
Proof.
  unfold _scale_series.
  destruct (Qeq_bool factor 1) eqn:Hone; cbn [orb].
  - apply Qeq_bool_iff in Hone. repeat split; try reflexivity.
    induction series as [| x xs IH]; constructor; [| exact IH].
    rewrite Hone. ring.
  - apply Qeq_bool_false in Hone.
    destruct series as [| x xs]; [repeat split; constructor |].
    rewrite bool_decide_eq_false_2 by discriminate.
    split; [apply length_map |]. split.
    + generalize (x :: xs). intros l.
      induction l as [| y ys IH]; constructor; [reflexivity | exact IH].
    + split; [intros H1; contradiction | reflexivity].
Qed.

Lemma fillna_empty (df : DataFrame.t) :
  DataFrame.empty (DataFrame.fillna 0 df) = DataFrame.empty df.
Proof.
  unfold DataFrame.empty, DataFrame.fillna. simpl.
  destruct (DataFrame.columns df), (DataFrame.rows df); reflexivity.
Qed.

Lemma fillna_loc (label : string) (df : DataFrame.t) :
  DataFrame.loc label (DataFrame.fillna 0 df) =
  map (fun c => Some (default 0 c)) <$> DataFrame.loc label df.
Proof.
  unfold DataFrame.loc, DataFrame.fillna. simpl.
  induction (DataFrame.rows df) as [| [l cells] rs IH]; simpl;
    [reflexivity |].
  destruct (bool_decide (l = label)); [reflexivity | exact IH].
Qed.

Lemma fillna_series_filled (cells : list (option Q)) :
  DataFrame.fillna_series 0 (map (fun c => Some (default 0 c)) cells) =
  DataFrame.fillna_series 0 cells.
Proof.
  unfold DataFrame.fillna_series. rewrite map_map. reflexivity.
Qed.

Lemma row_values_fillna (df : DataFrame.t) (labels : list string) :
  _row_values (DataFrame.fillna 0 df) labels = _row_values df labels.
Proof.
  unfold _row_values. rewrite fillna_empty.
  destruct (DataFrame.empty df); [reflexivity |].
  induction labels as [| label labels IH]; simpl; [reflexivity |].
  rewrite fillna_loc. destruct (DataFrame.loc label df); simpl.
  - now rewrite fillna_series_filled.
  - exact IH.
Qed.

Lemma fillna_well_formed (df : DataFrame.t) :
  DataFrame.well_formed df -> DataFrame.well_formed (DataFrame.fillna 0 df).
Proof.
  unfold DataFrame.well_formed, DataFrame.fillna. simpl.
  intros Hwf. apply Forall_fmap. eapply Forall_impl; [exact Hwf |].
  intros [l cells] Hrow. simpl in *. now rewrite length_map.
Qed.

(** X15.  Pre-filling the table is harmless: the free-cash-flow history
    of the zero-filled table is that of the table itself, a missing cell
    counting as 0 either way; a missing table gives an empty history. *)
Theorem safe_df_preserves_fcf (df : DataFrame.t) :
  _compute_fcf_series (_safe_df (Some df)) = _compute_fcf_series df /\
  _compute_fcf_series (_safe_df None) = [] /\
  (DataFrame.well_formed df -> DataFrame.well_formed (_safe_df (Some df))).
Proof.
  split; [| split; [reflexivity | apply fillna_well_formed]].
  unfold _compute_fcf_series, _safe_df.
  rewrite fillna_empty, !row_values_fillna. reflexivity.
Qed.

Lemma extract_latest_loop_component (df : DataFrame.t)
    (labels : list string) :
  DataFrame.well_formed df ->
  DataFrame.empty df = false ->
  _extract_latest_loop df labels =
  Return (default 0 (head (component df labels))).
Proof.
  intros Hwf Hne. unfold component, first_present.
  induction labels as [| label labels IH]; simpl.
  - destruct (DataFrame.columns df); reflexivity.
  - rewrite loc_contains.
    destruct (DataFrame.loc label df) as [cells |] eqn:Hloc; [| exact IH].
    simpl. rewrite Hloc. simpl.
    pose proof (loc_rows_length label df cells Hwf Hloc) as Hlen.
    destruct cells as [| c cells]; [| reflexivity].
    unfold DataFrame.empty in Hne.
    destruct (DataFrame.columns df); [| discriminate Hlen].
    discriminate Hne.
Qed.

(** X16.  On a table whose rows all span the period columns,
    [_extract_latest] never raises: it returns the first-column value of
    the first candidate label present, and 0 when the table is empty or no
    candidate is present. *)
Theorem extract_latest_total (df : DataFrame.t) (labels : list string) :
  DataFrame.well_formed df ->
  exists x,
    _extract_latest df labels = Return x /\
    (DataFrame.empty df = true -> x = 0) /\
    (first_present df labels = None -> x = 0) /\
    (DataFrame.empty df = false ->
     x = default 0 (head (component df labels))).
Proof.
  intros Hwf. unfold _extract_latest.
  destruct (DataFrame.empty df) eqn:Hempty.
  - exists 0. split; [reflexivity |]. split; [reflexivity |].
    split; [reflexivity | discriminate].
  - rewrite extract_latest_loop_component by assumption.
    eexists. split; [reflexivity |]. split; [discriminate |].
    split; [| reflexivity].
    intros Hnone. unfold component. rewrite Hnone.
    destruct (DataFrame.columns df); reflexivity.
Qed.

End TableExtras.

Section OwnerEarningsExtras.
Import Py data_provider Spec.
Import YahooFinanceDataProvider.

(** X17.  Owner earnings: empty when either statement is empty; otherwise,
    period by period, net income plus depreciation minus capex, where
    depreciation comes from the income statement when one of its candidate
    rows is there and from the cash-flow statement when none is.  The
    history is as long as the shorter of the two statements. *)
Theorem owner_earnings_shape (financials cashflow : DataFrame.t) :
  let income_depreciation :=
    ["Depreciation & Amortization"; "Depreciation And Amortization";
     "Depreciation Amortization Depletion"; "Reconciled Depreciation"]%string in
  let cashflow_depreciation :=
    ["Depreciation & Amortization"; "Depreciation And Amortization";
     "Depreciation Amortization Depletion"]%string in
  let net_income := component financials net_income_labels in
  let depreciation :=
    match first_present financials income_depreciation with
    | Some _ => component financials income_depreciation
    | None => component cashflow cashflow_depreciation
    end in
  let capex := component cashflow capex_labels in
  let owner := _compute_owner_earnings_series financials cashflow in
  (DataFrame.empty financials = true \/ DataFrame.empty cashflow = true ->
   owner = []) /\
  (DataFrame.empty financials = false ->
   DataFrame.empty cashflow = false ->
   (forall i ni dep cap,
      net_income !! i = Some ni ->
      depreciation !! i = Some dep ->
      capex !! i = Some cap ->
      owner !! i = Some (ni + dep - cap)) /\
   (DataFrame.well_formed financials ->
    DataFrame.well_formed cashflow ->
    length owner =
    Nat.min (length (DataFrame.columns financials))
            (length (DataFrame.columns cashflow)))).
Proof.
  intros income_depreciation cashflow_depreciation net_income depreciation
    capex owner.
  split.
  - intros Hempty. unfold owner, _compute_owner_earnings_series.
    destruct Hempty as [-> | ->]; [reflexivity |].
    now rewrite orb_true_r.
  - intros Hfin Hcf.
    assert (Howner :
      owner = map (fun x => x.1.1 + x.1.2 - x.2)
                  (zip (zip net_income depreciation) capex)).
    { unfold owner, _compute_owner_earnings_series.
      rewrite Hfin, Hcf. cbn [orb].
      rewrite !(row_values_component financials) by exact Hfin.
      rewrite !(row_values_component cashflow) by exact Hcf.
      fold income_depreciation cashflow_depreciation net_income capex.
      unfold depreciation.
      destruct (first_present financials income_depreciation); reflexivity. }
    split.
    + intros i ni dep cap Hni Hdep Hcap. rewrite Howner.
      rewrite list_lookup_fmap, !lookup_zip_with, Hni, Hdep, Hcap.
      reflexivity.
    + intros Hwf_fin Hwf_cf. rewrite Howner.
      rewrite length_map, !length_zip.
      unfold net_income, capex, depreciation.
      destruct (first_present financials income_depreciation);
        rewrite !component_length by assumption; lia.
Qed.

End OwnerEarningsExtras.

Section SnapshotExtras.
Import Py data_provider Spec.
Import YahooFinanceDataProvider.

Lemma safe_df_well_formed (table : option DataFrame.t) :
  (forall df, table = Some df -> DataFrame.well_formed df) ->
  DataFrame.well_formed (_safe_df table).
Proof.
  intros Hwf. destruct table as [df |]; simpl.
  - apply fillna_well_formed. now apply Hwf.
  - constructor.
Qed.

Lemma extract_latest_returns (df : DataFrame.t) (labels : list string) :
  DataFrame.well_formed df -> exists x, _extract_latest df labels = Return x.
Proof.
  intros Hwf. unfold _extract_latest.
  destruct (DataFrame.empty df) eqn:Hempty; [eexists; reflexivity |].
  rewrite extract_latest_loop_component by assumption. eexists. reflexivity.
Qed.

Lemma extract_latest_empty (df : DataFrame.t) (labels : list string) :
  DataFrame.empty df = true -> _extract_latest df labels = Return 0.
Proof. intros Hempty. unfold _extract_latest. now rewrite Hempty. Qed.

Ltac warning_cases :=
  rewrite ?elem_of_app, ?elem_of_cons, ?elem_of_nil;
  split; [intros; repeat match goal with
                         | Hw : _ \/ _ |- _ => destruct Hw
                         | Hw : False |- _ => destruct Hw
                         | Hw : _ = _ |- _ => discriminate Hw
                         end; try assumption; try lra; try reflexivity
         | intros; try lra; try discriminate; auto 6].

(** X18.  On statements whose rows span their period columns, building a
    snapshot never raises.  The snapshot carries the normalised ticker, the
    price and the share count; it warns about the share count exactly when
    that is at most 0, about missing cash-flow data exactly when the
    free-cash-flow history is empty, and about dividends exactly when the
    trailing dividend is at most 0. *)
Theorem build_snapshot_returns (normalized : string) (yf_ticker : Ticker.t) :
  (forall df, Ticker.cashflow yf_ticker = Some df ->
              DataFrame.well_formed df) ->
  (forall df, Ticker.financials yf_ticker = Some df ->
              DataFrame.well_formed df) ->
  exists snapshot,
    build_snapshot normalized yf_ticker = Return snapshot /\
    FinancialSnapshot.ticker snapshot = normalized /\
    FinancialSnapshot.current_price snapshot = Ticker.price yf_ticker /\
    FinancialSnapshot.shares_outstanding snapshot =
      Ticker.shares yf_ticker /\
    FinancialSnapshot.fcf_history snapshot =
      _scale_series
        (_compute_fcf_series (_safe_df (Ticker.cashflow yf_ticker)))
        (Ticker.fx_rate yf_ticker) /\
    ("Unable to determine shares outstanding. Intrinsic value per share may be inaccurate."%string
       ∈ FinancialSnapshot.warnings snapshot <->
     Ticker.shares yf_ticker <= 0) /\
    ("Missing cash flow data. DCF mode will rely on user assumptions only."%string
       ∈ FinancialSnapshot.warnings snapshot <->
     FinancialSnapshot.fcf_history snapshot = []) /\
    ("No trailing dividends detected. DDM valuations may not be meaningful."%string
       ∈ FinancialSnapshot.warnings snapshot <->
     FinancialSnapshot.dividends_per_share_ttm snapshot <= 0).
Proof.
  intros Hcf Hfin.
  pose proof (safe_df_well_formed _ Hcf) as Hwcf.
  pose proof (safe_df_well_formed _ Hfin) as Hwfin.
  unfold build_snapshot.
  destruct (extract_latest_returns _
              ["Total Revenue"; "Operating Revenue"]%string Hwfin)
    as [revenue ->].
  destruct (extract_latest_returns _ net_income_labels Hwfin)
    as [net_income ->].
  destruct (extract_latest_returns _
              ["Operating Cash Flow";
               "Total Cash From Operating Activities"]%string Hwcf)
    as [operating ->].
  destruct (extract_latest_returns _ capex_labels Hwcf) as [capex ->].
  cbn [mbind result_bind bind mret result_ret].
  eexists. split; [reflexivity |].
  cbn [FinancialSnapshot.ticker FinancialSnapshot.current_price
       FinancialSnapshot.shares_outstanding FinancialSnapshot.fcf_history
       FinancialSnapshot.warnings FinancialSnapshot.dividends_per_share_ttm].
  split; [reflexivity |]. split; [reflexivity |]. split; [reflexivity |].
  split; [reflexivity |].
  set (fcf := _scale_series _ _).
  set (dividends := Ticker.dividend_ttm yf_ticker * Ticker.fx_rate yf_ticker).
  destruct (leb (Ticker.shares yf_ticker) 0) eqn:Hshares;
    [apply leb_true in Hshares | apply leb_false in Hshares];
    (destruct (bool_decide (fcf = [])) eqn:Hfcf;
       [apply bool_decide_eq_true_1 in Hfcf
       | apply bool_decide_eq_false_1 in Hfcf]);
    (destruct (leb dividends 0) eqn:Hdiv;
       [apply leb_true in Hdiv | apply leb_false in Hdiv]);
    cbn [app];
    (split; [| split]); warning_cases; try contradiction.
Qed.

(** X19.  When the cash-flow statement is missing or empty, the built
    snapshot has no free-cash-flow history, says so in its warnings, and
    the base cash flow selected for a DCF falls back to
    [latest_operating_cash_flow - latest_capex], which is 0. *)
Theorem empty_cashflow_base_is_zero (normalized : string)
    (yf_ticker : Ticker.t) :
  DataFrame.empty (_safe_df (Ticker.cashflow yf_ticker)) = true ->
  (forall df, Ticker.financials yf_ticker = Some df ->
              DataFrame.well_formed df) ->
  exists snapshot,
    build_snapshot normalized yf_ticker = Return snapshot /\
    FinancialSnapshot.fcf_history snapshot = [] /\
    "Missing cash flow data. DCF mode will rely on user assumptions only."%string
      ∈ FinancialSnapshot.warnings snapshot /\
    valuation_service.ValuationService._select_base_cashflow snapshot false
      == 0.
Proof.
  intros Hempty Hfin.
  pose proof (safe_df_well_formed _ Hfin) as Hwfin.
  unfold build_snapshot.
  destruct (extract_latest_returns _
              ["Total Revenue"; "Operating Revenue"]%string Hwfin)
    as [revenue ->].
  destruct (extract_latest_returns _ net_income_labels Hwfin)
    as [net_income ->].
  rewrite !(extract_latest_empty _ _ Hempty).
  cbn [mbind result_bind bind mret result_ret].
  assert (Hfcf : _scale_series
                   (_compute_fcf_series (_safe_df (Ticker.cashflow yf_ticker)))
                   (Ticker.fx_rate yf_ticker) = []).
  { unfold _compute_fcf_series. rewrite Hempty. unfold _scale_series.
    now destruct (Qeq_bool _ 1). }
  rewrite Hfcf. rewrite (bool_decide_eq_true_2 _ (eq_refl : @nil Q = [])).
  eexists. split; [reflexivity |].
  cbn [FinancialSnapshot.fcf_history FinancialSnapshot.warnings].
  split; [reflexivity |]. split.
  - destruct (leb (Ticker.shares yf_ticker) 0), (leb _ 0); cbn [app];
      rewrite ?elem_of_cons; auto.
  - unfold valuation_service.ValuationService._select_base_cashflow.
    cbn [FinancialSnapshot.fcf_history FinancialSnapshot.metadata].
    repeat (rewrite lookup_insert_eq
            || rewrite lookup_insert_ne by discriminate).
    simpl. ring.
Qed.

End SnapshotExtras.

Section CacheExtras.
Import Py data_provider.
Import YahooFinanceDataProvider.

Lemma lstrip_spaces (cs : list ascii) :
  Forall (fun c => is_space c = true) cs -> lstrip cs = [].
Proof.
  induction 1 as [| c cs Hc _ IH]; simpl; [reflexivity |].
  now rewrite Hc.
Qed.

Lemma strip_spaces (s : string) :
  Forall (fun c => is_space c = true) (list_ascii_of_string s) ->
  strip s = ""%string.
Proof.
  intros Hall. unfold strip. now rewrite (lstrip_spaces _ Hall).
Qed.

(** X20.  A ticker made of whitespace only (the empty string included) is
    rejected with [ValueError]; the provider is left as it was, the clock
    is not read and nothing is requested upstream. *)
Theorem blank_ticker_rejected (self : t) (ticker : string) (w : World.t) :
  Forall (fun c => is_space c = true) (list_ascii_of_string ticker) ->
  get_snapshot self ticker w =
  (Raise (ValueError "Ticker cannot be empty."), self, w).
Proof.
  intros Hblank. unfold get_snapshot.
  now rewrite (strip_spaces ticker Hblank).
Qed.

(** X21.  A call that raises leaves the provider exactly as it was: no
    entry is added, and a stale entry is neither refreshed nor evicted. *)
Theorem failed_call_keeps_provider (self : t) (ticker : string)
    (w : World.t) (e : exn) (self' : t) (w' : World.t) :
  get_snapshot self ticker w = (Raise e, self', w') -> self' = self.
Proof.
  unfold get_snapshot.
  destruct (bool_decide (upper (strip ticker) = ""%string));
    [now intros [= _ <- _] |].
  destruct (cache_lookup self (upper (strip ticker)) w) as [[cached |] w1].
  - discriminate.
  - simpl.
    destruct (World.upstream w1 _ _ ≫= build_snapshot _);
      [now intros [= _ <- _] | discriminate].
Qed.

Lemma cache_lookup_world (self : t) (normalized : string) (w : World.t) :
  let w1 := (cache_lookup self normalized w).2 in
  World.requests w1 = World.requests w /\
  World.clock w1 = World.clock w /\
  World.upstream w1 = World.upstream w.
Proof.
  unfold cache_lookup.
  destruct (_cache self !! normalized) as [cached |]; simpl;
    [destruct (ltb _ _) |]; repeat split.
Qed.

(** X22.  Whatever a call does, it keeps the TTL and touches no cache
    entry other than the one of the normalised ticker; the wall clock and
    the upstream service stay what they were. *)
Theorem get_snapshot_frame (self : t) (ticker : string) (w : World.t)
    (outcome : result FinancialSnapshot.t) (self' : t) (w' : World.t) :
  get_snapshot self ticker w = (outcome, self', w') ->
  let normalized := upper (strip ticker) in
  cache_ttl self' = cache_ttl self /\
  (forall key, key <> normalized ->
               _cache self' !! key = _cache self !! key) /\
  World.clock w' = World.clock w /\
  World.upstream w' = World.upstream w.
Proof.
  intros Hcall normalized. unfold get_snapshot in Hcall.
  fold normalized in Hcall.
  destruct (bool_decide (normalized = ""%string)).
  { revert Hcall; intros [= <- <- <-]. repeat split; auto. }
  pose proof (cache_lookup_world self normalized w) as Hw1. cbv zeta in Hw1.
  destruct (cache_lookup self normalized w) as [[cached |] w1];
    cbn [snd] in Hw1; destruct Hw1 as (Hreq & Hclock & Hup).
  { revert Hcall; intros [= <- <- <-]. repeat split; auto. }
  simpl in Hcall.
  destruct (World.upstream w1 _ _ ≫= build_snapshot _).
  - revert Hcall; intros [= <- <- <-]. simpl. repeat split; auto.
  - revert Hcall; intros [= <- <- <-]. simpl. repeat split; auto.
    intros key Hkey. now apply lookup_insert_ne.
Qed.

End CacheExtras.

Section FxExtras.
Import Py data_provider.
Import YahooFinanceDataProvider.

Lemma fx_attempt_positive (quotes : string -> result (gmap string Q))
    (pair : string) (invert : bool) (rate : Q) :
  fx_attempt quotes pair invert = Some rate -> 0 < rate.
Proof.
  unfold fx_attempt.
  destruct (quotes pair) as [e | fast_info]; [discriminate |].
  destruct (or_else _ _) as [price |]; [| discriminate].
  destruct (truthy price) eqn:Ht; [| discriminate].
  destruct (gtb price 0) eqn:Hpos; [| discriminate].
  apply gtb_true in Hpos. cbn [andb].
  destruct invert.
  - rewrite div_truthy by exact Ht. intros [= <-].
    unfold Qdiv. rewrite Qmult_1_l. now apply Qinv_lt_0_compat.
  - now intros [= <-].
Qed.

(** X23.  The FX rate is always positive and resolving it never fails.  It
    is 1 without any lookup when a currency is blank or the two agree up to
    letter case, 1 again when both lookups raise, and the direct quote's
    [lastPrice] when that is positive. *)
Theorem fx_rate_positive (quotes : string -> result (gmap string Q))
    (financial_currency market_currency : string) :
  let fin := upper financial_currency in
  let mkt := upper market_currency in
  let rate := _resolve_fx_rate quotes financial_currency market_currency in
  0 < rate /\
  (fin = ""%string \/ mkt = ""%string \/ fin = mkt -> rate = 1) /\
  ((forall pair, is_raise (quotes pair) = true) -> rate = 1) /\
  (forall fast_info price,
     fin <> ""%string -> mkt <> ""%string -> fin <> mkt ->
     quotes (fin +:+ mkt +:+ "=X") = Return fast_info ->
     fast_info !! "lastPrice"%string = Some price ->
     0 < price ->
     rate = price).
Proof.
  intros fin mkt rate.
  unfold rate, _resolve_fx_rate. fold fin mkt.
  split; [| split; [| split]].
  - destruct (_ || _ || _); [reflexivity |].
    destruct (fx_attempt quotes (fin +:+ mkt +:+ "=X") false) as [r |] eqn:Hd;
      [now apply fx_attempt_positive in Hd |].
    destruct (fx_attempt quotes (mkt +:+ fin +:+ "=X") true) as [r |] eqn:Hi;
      [now apply fx_attempt_positive in Hi | reflexivity].
  - intros [-> | [-> | ->]].
    + reflexivity.
    + now rewrite orb_true_r.
    + rewrite (bool_decide_eq_true_2 (mkt = mkt)) by reflexivity.
      now rewrite orb_true_r.
  - intros Hraise. destruct (_ || _ || _); [reflexivity |].
    unfold fx_attempt.
    pose proof (Hraise (fin +:+ mkt +:+ "=X")) as H1.
    pose proof (Hraise (mkt +:+ fin +:+ "=X")) as H2.
    destruct (quotes (fin +:+ mkt +:+ "=X")); [| discriminate].
    destruct (quotes (mkt +:+ fin +:+ "=X")); [| discriminate].
    reflexivity.
  - intros fast_info price Hfin Hmkt Hne Hquote Hprice Hpos.
    rewrite (bool_decide_eq_false_2 (fin = ""%string) Hfin),
      (bool_decide_eq_false_2 (mkt = ""%string) Hmkt),
      (bool_decide_eq_false_2 (fin = mkt) Hne).
    cbn [orb].
    unfold fx_attempt. rewrite Hquote. unfold or_else. rewrite Hprice.
    assert (Ht : truthy price = true) by (apply truthy_true; lra).
    apply gtb_true in Hpos.
    rewrite Ht. cbv beta iota. rewrite Ht, Hpos. reflexivity.
Qed.

End FxExtras.

Section NormalisationExtras.
Import Py Characters.

Lemma is_space_upper (c : ascii) : is_space (upper_char c) = is_space c.
Proof. destruct c as [[] [] [] [] [] [] [] []]; reflexivity. Qed.

Lemma upper_char_idempotent (c : ascii) :
  upper_char (upper_char c) = upper_char c.
Proof. destruct c as [[] [] [] [] [] [] [] []]; reflexivity. Qed.

Lemma lstrip_map_upper (cs : list ascii) :
  lstrip (map upper_char cs) = map upper_char (lstrip cs).
Proof.
  induction cs as [| c cs IH]; simpl; [reflexivity |].
  rewrite is_space_upper. destruct (is_space c); [exact IH | reflexivity].
Qed.

(** A list that does not start with whitespace. *)
Lemma lstrip_fixed (cs : list ascii) :
  match cs with [] => True | c :: _ => is_space c = false end ->
  lstrip cs = cs.
Proof. destruct cs as [| c cs]; simpl; [reflexivity | now intros ->]. Qed.

Lemma lstrip_head (cs : list ascii) :
  match lstrip cs with [] => True | c :: _ => is_space c = false end.
Proof.
  induction cs as [| c cs IH]; simpl; [exact I |].
  destruct (is_space c) eqn:E; [exact IH | exact E].
Qed.

Lemma lstrip_snoc (cs : list ascii) (c : ascii) :
  is_space c = false -> lstrip (cs ++ [c]) = lstrip cs ++ [c].
Proof.
  intros Hc. induction cs as [| x cs IH]; simpl; [now rewrite Hc |].
  destruct (is_space x); [exact IH | reflexivity].
Qed.

Lemma strip_chars_head (cs : list ascii) :
  match strip_chars cs with [] => True | c :: _ => is_space c = false end.
Proof.
  unfold strip_chars. pose proof (lstrip_head cs) as Hhead.
  destruct (lstrip cs) as [| c0 rest]; [exact I |].
  cbn [rev]. change (rev rest ++ [c0]) with (rev rest ++ [c0]).
  rewrite lstrip_snoc by exact Hhead.
  rewrite rev_app_distr. exact Hhead.
Qed.

Lemma strip_chars_last (cs : list ascii) :
  match rev (strip_chars cs) with
  | [] => True
  | c :: _ => is_space c = false
  end.
Proof. unfold strip_chars. rewrite rev_involutive. apply lstrip_head. Qed.

Lemma strip_chars_idempotent (cs : list ascii) :
  strip_chars (strip_chars cs) = strip_chars cs.
Proof.
  unfold strip_chars at 1.
  rewrite (lstrip_fixed _ (strip_chars_head cs)).
  rewrite (lstrip_fixed _ (strip_chars_last cs)).
  apply rev_involutive.
Qed.

Lemma strip_chars_map_upper (cs : list ascii) :
  strip_chars (map upper_char cs) = map upper_char (strip_chars cs).
Proof.
  unfold strip_chars.
  now rewrite lstrip_map_upper, <- map_rev, lstrip_map_upper, <- map_rev.
Qed.

End NormalisationExtras.

Section NormalisationClaims.
Import Py Characters data_provider.
Import YahooFinanceDataProvider.

Lemma normalise_chars (s : string) :
  upper (strip s) =
  string_of_list_ascii
    (map upper_char (strip_chars (list_ascii_of_string s))).
Proof.
  unfold upper, strip. fold (strip_chars (list_ascii_of_string s)).
  now rewrite list_ascii_of_string_of_list_ascii.
Qed.

(** X24.  Normalising a ticker twice is the same as normalising it once,
    so a call with an already normalised ticker, such as the [ticker] of a
    cached snapshot, behaves exactly like the call with the raw one. *)
Theorem ticker_normalisation_idempotent (ticker : string) :
  upper (strip (upper (strip ticker))) = upper (strip ticker) /\
  (forall self w,
     get_snapshot self (upper (strip ticker)) w = get_snapshot self ticker w).
Proof.
  assert (Hidem : upper (strip (upper (strip ticker))) = upper (strip ticker)).
  { rewrite (normalise_chars (upper (strip ticker))).
    rewrite (normalise_chars ticker).
    rewrite list_ascii_of_string_of_list_ascii.
    rewrite strip_chars_map_upper, strip_chars_idempotent.
    rewrite map_map. f_equal. apply map_ext. intros c.
    apply upper_char_idempotent. }
  split; [exact Hidem |].
  intros self w. unfold get_snapshot. now rewrite Hidem.
Qed.

End NormalisationClaims.

Section SeriesExtras.
Import Py valuation_models valuation_service Spec Projection.
Import DiscountedCashFlowModel.
Context `{FloatFormat} `{FloatParse} `{FloatRange}.

Lemma clean_never_empty (v : valuation_service.value)
    (items : list valuation_service.value) :
  last (map coerce (v :: items)) <> None.
Proof.
  intros Hnone. apply last_None in Hnone. discriminate.
Qed.

Lemma normalize_returns (raw : valuation_service.value) (years : Z) :
  series_within_float_range raw ->
  exists series,
    _normalize_growth_series raw years = Return series /\
    ((1 <= years)%Z -> length series = Z.to_nat years).
Proof.
  intros Hraw. unfold _normalize_growth_series.
  destruct (is_number raw) eqn:Hnum.
  - rewrite to_float_number
      by (exact Hnum || (destruct raw; try discriminate; exact Hraw)).
    cbn [mbind result_bind bind mret result_ret].
    eexists. split; [reflexivity |]. intros Hy.
    unfold replicate_int. rewrite repeat_length. lia.
  - assert (Hdefault : exists series,
              (mret (replicate_int 0 (Z.max years 1)) : result (list Q)) =
                Return series /\
              ((1 <= years)%Z -> length series = Z.to_nat years)).
    { eexists. split; [reflexivity |]. intros Hy.
      unfold replicate_int. rewrite repeat_length. lia. }
    destruct raw as [| b | n | x | s | [| v items] | items]; try exact Hdefault.
    rewrite clean_loop_coerce by exact Hraw.
    cbn [mbind result_bind bind app].
    destruct (last (map coerce (v :: items))) as [final |] eqn:Hlast;
      [| now destruct (clean_never_empty v items)].
    rewrite (pad_loop_repeat _ _ final Hlast).
    cbn [mbind result_bind bind mret result_ret].
    eexists. split; [reflexivity |]. intros Hy.
    rewrite slice_to_nonneg by lia.
    rewrite length_take, length_app, length_map, repeat_length. lia.
Qed.


(** X13.  With an explicit non-empty list whose integers are within the
    float range, a horizon of 0 leaves no growth rate at all, and the
    scenario is then rejected with the [ValueError]; a negative horizon
    drops that many entries from the end of the list. *)
Theorem list_series_with_nonpositive_horizon
    (items : list valuation_service.value)
    (years : Z) (d mos base price m p : Q) (nm : string) :
  items <> [] ->
  Forall within_float_range items ->
  (years <= 0)%Z ->
  let kept :=
    if bool_decide (years = 0)%Z then 0%nat
    else Z.to_nat (Z.of_nat (length items) + years) in
  _normalize_growth_series (VList items) years =
    Return (take kept (map coerce items)) /\
  (years = 0%Z ->
   _evaluate_scenario (__init__ d mos) base price
     {| ScenarioProfile.name := nm;
        ScenarioProfile.growth_rates := take kept (map coerce items);
        ScenarioProfile.terminal_multiple := m;
        ScenarioProfile.probability := p |} =
   Raise (ValueError
            "Growth rates are required for at least one forecast year.")).
Proof.
  intros Hne Hall Hy kept.
  destruct items as [| v items]; [easy |].
  split.
  - unfold _normalize_growth_series. cbn [is_number].
    rewrite clean_loop_coerce by exact Hall.
    cbn [mbind result_bind bind app].
    rewrite length_map.
    replace (Z.to_nat (years - Z.of_nat (length (v :: items)))) with 0%nat
      by lia.
    cbn [pad_loop mbind result_bind bind mret result_ret].
    f_equal. unfold slice_to, kept. rewrite length_map.
    destruct (bool_decide (years = 0)%Z) eqn:Hz.
    + apply bool_decide_eq_true_1 in Hz. subst years. reflexivity.
    + apply bool_decide_eq_false_1 in Hz.
      rewrite bool_decide_eq_false_2 by lia. reflexivity.
  - intros ->. unfold kept. cbn [bool_decide].
    apply evaluate_scenario_empty. reflexivity.
Qed.

End SeriesExtras.

Section ProviderExtraExamples.
Import Py data_provider Spec Examples valuation_models.
Import YahooFinanceDataProvider.

Lemma scale_series_scales_witness :
  _scale_series [120; 80] 1 = [120; 80].
Proof.
  apply (proj1 (proj2 (proj2 (scale_series_scales [120; 80] 1)))).
  reflexivity.
Defined.

Lemma safe_df_preserves_fcf_witness :
  DataFrame.well_formed (_safe_df (Some cashflow_table)).
Proof.
  apply (proj2 (proj2 (safe_df_preserves_fcf cashflow_table))).
  repeat constructor.
Defined.

Lemma extract_latest_total_witness :
  exists x,
    _extract_latest cashflow_table capex_labels = Return x /\
    x = default 0 (head (component cashflow_table capex_labels)).
Proof.
  destruct (extract_latest_total cashflow_table capex_labels
              ltac:(repeat constructor))
    as (x & Hx & _ & _ & Hhead).
  exists x. split; [exact Hx |]. apply Hhead. reflexivity.
Defined.

Lemma owner_earnings_shape_witness :
  length (_compute_owner_earnings_series reported_fcf_table cashflow_table) =
  2%nat.
Proof.
  apply (proj2 (proj2 (owner_earnings_shape reported_fcf_table
                         cashflow_table) eq_refl eq_refl)).
  - repeat constructor.
  - repeat constructor.
Defined.

Lemma build_snapshot_returns_witness :
  exists snapshot,
    build_snapshot "ACME" acme_upstream = Return snapshot /\
    FinancialSnapshot.ticker snapshot = "ACME"%string.
Proof.
  destruct (build_snapshot_returns "ACME" acme_upstream)
    as (snapshot & Hs & Hticker & _).
  - intros df [= <-]. repeat constructor.
  - intros df [=].
  - exists snapshot. split; [exact Hs | exact Hticker].
Defined.

Lemma empty_cashflow_base_is_zero_witness :
  exists snapshot,
    build_snapshot "ACME"
      {| Ticker.cashflow := None;
         Ticker.financials := Some reported_fcf_table;
         Ticker.balance_sheet := None;
         Ticker.price := 101;
         Ticker.shares := 1000;
         Ticker.currency := "USD";
         Ticker.financial_currency := "EUR";
         Ticker.fx_rate := 11 # 10;
         Ticker.dividend_ttm := 0 |} = Return snapshot /\
    valuation_service.ValuationService._select_base_cashflow snapshot false
      == 0.
Proof.
  destruct (empty_cashflow_base_is_zero "ACME"
              {| Ticker.cashflow := None;
                 Ticker.financials := Some reported_fcf_table;
                 Ticker.balance_sheet := None;
                 Ticker.price := 101;
                 Ticker.shares := 1000;
                 Ticker.currency := "USD";
                 Ticker.financial_currency := "EUR";
                 Ticker.fx_rate := 11 # 10;
                 Ticker.dividend_ttm := 0 |})
    as (snapshot & Hs & _ & _ & Hbase).
  - reflexivity.
  - intros df [= <-]. repeat constructor.
  - exists snapshot. split; [exact Hs | exact Hbase].
Defined.

Lemma blank_ticker_rejected_witness :
  get_snapshot warm_provider "   " (world_at 0) =
  (Raise (ValueError "Ticker cannot be empty."), warm_provider, world_at 0).
Proof.
  apply (blank_ticker_rejected warm_provider "   " (world_at 0)).
  repeat constructor.
Defined.

Lemma failed_call_keeps_provider_witness :
  (get_snapshot warm_provider "acme" (offline_world 5000)).1.2 =
  warm_provider.
Proof.
  apply (failed_call_keeps_provider warm_provider "acme"
           (offline_world 5000) (UpstreamError "unreachable") _
           (get_snapshot warm_provider "acme" (offline_world 5000)).2).
  vm_compute. reflexivity.
Defined.

Lemma get_snapshot_frame_witness :
  cache_ttl (get_snapshot warm_provider "msft" (world_at 10)).1.2 =
    cache_ttl warm_provider /\
  _cache (get_snapshot warm_provider "msft" (world_at 10)).1.2
    !! "ACME"%string = _cache warm_provider !! "ACME"%string.
Proof.
  destruct (get_snapshot_frame warm_provider "msft" (world_at 10)
              (get_snapshot warm_provider "msft" (world_at 10)).1.1
              (get_snapshot warm_provider "msft" (world_at 10)).1.2
              (get_snapshot warm_provider "msft" (world_at 10)).2)
    as (Httl & Hframe & _).
  - vm_compute. reflexivity.
  - split; [exact Httl |]. apply Hframe. vm_compute. discriminate.
Defined.

Lemma fx_rate_positive_witness :
  _resolve_fx_rate euro_quotes "eur" "usd" = 11 # 10.
Proof.
  apply (proj2 (proj2 (proj2 (fx_rate_positive euro_quotes "eur" "usd")))
           {[ "lastPrice"%string := 11 # 10 ]}).
  - vm_compute. discriminate.
  - vm_compute. discriminate.
  - vm_compute. discriminate.
  - vm_compute. reflexivity.
  - vm_compute. reflexivity.
  - reflexivity.
Defined.

End ProviderExtraExamples.

Section SeriesExtraExamples.
Import Py valuation_models valuation_service Spec Projection Builtins.


Lemma list_series_with_nonpositive_horizon_witness :
  _normalize_growth_series (VList [VInt 1; VInt 2; VInt 3]) (-1) =
  Return [1; 2].
Proof.
  apply (proj1 (list_series_with_nonpositive_horizon
                  [VInt 1; VInt 2; VInt 3] (-1)
                  (1 # 10) (3 # 10) 10 100 12 1 "Base"
                  ltac:(discriminate)
                  ltac:(repeat constructor; vm_compute; (discriminate || reflexivity))
                  ltac:(lia))).
Defined.

End SeriesExtraExamples.

Section CompositionExtras.
Import Py valuation_models data_provider Spec Projection.
Import DiscountedCashFlowModel.
Context `{FloatFormat} `{FloatRange}.

Lemma weighted_buy_prices (margin : Q) (vs : list ScenarioValuation.t) :
  Forall (fun v => ScenarioValuation.buy_price v =
                   ScenarioValuation.intrinsic_value v * (1 - margin)) vs ->
  forall ws,
    sum (map (fun vp => ScenarioValuation.buy_price vp.1 * vp.2) (zip vs ws))
    == weighted_sum vs ws * (1 - margin).
Proof.
  induction 1 as [| v vs Hv _ IH]; intros ws.
  - unfold weighted_sum, sum. simpl. ring.
  - destruct ws as [| w ws].
    + unfold weighted_sum, sum. simpl. ring.
    + cbn [zip_with map fst snd]. rewrite sum_cons, IH, Hv.
      rewrite weighted_sum_cons. ring.
Qed.

(** X25.  When the model can value every scenario (at least one growth
    rate each, discount factors finite floats), the aggregate buy price is
    the weighted average of the scenarios' buy prices, taken with the same
    weights as the weighted intrinsic value. *)
Theorem aggregate_buy_price_is_weighted_average
    (d mos base price shares : Q) (scenarios : list ScenarioProfile.t) :
  Forall (forecastable (__init__ d mos)) scenarios ->
  exists agg ws,
    evaluate (__init__ d mos) base price shares scenarios = Return agg /\
    probabilities scenarios = Return ws /\
    AggregateValuation.margin_of_safety_buy_price agg ==
    sum (map (fun vp => ScenarioValuation.buy_price vp.1 * vp.2)
             (zip (AggregateValuation.scenario_results agg) ws)).
Proof.
  intros Hall.
  pose proof (init_discount_rate_nonneg d mos) as Hr.
  destruct (evaluate_returns _ base price shares scenarios Hr Hall)
    as (ps & vs & _ & Hvs & Hev).
  eexists _, (weights scenarios). split; [exact Hev |].
  split; [apply probabilities_weights |]. unfold assembled.
  cbn [AggregateValuation.margin_of_safety_buy_price
       AggregateValuation.scenario_results].
  symmetry. apply weighted_buy_prices.
  clear Hev. induction Hvs as [| s v ss vs Hv _ IH]; constructor.
  - now apply (evaluate_scenario_buy_price _ ps price s).
  - apply IH. now inversion Hall.
Qed.

(** X26.  The base cash flow of a DCF is the most recent free cash flow:
    when the cash-flow statement yields a history, the snapshot's first
    entry, which is the statement's latest-period value times the FX
    rate. *)
Theorem dcf_base_is_latest_scaled_fcf (normalized : string)
    (yf_ticker : Ticker.t) (latest : Q) (older : list Q) :
  (forall df, Ticker.cashflow yf_ticker = Some df ->
              DataFrame.well_formed df) ->
  (forall df, Ticker.financials yf_ticker = Some df ->
              DataFrame.well_formed df) ->
  YahooFinanceDataProvider._compute_fcf_series
    (YahooFinanceDataProvider._safe_df (Ticker.cashflow yf_ticker)) =
    latest :: older ->
  exists snapshot,
    YahooFinanceDataProvider.build_snapshot normalized yf_ticker =
      Return snapshot /\
    length (FinancialSnapshot.fcf_history snapshot) = S (length older) /\
    valuation_service.ValuationService._select_base_cashflow snapshot false
      == latest * Ticker.fx_rate yf_ticker.
Proof.
  intros Hcf Hfin Hfcf.
  pose proof (safe_df_well_formed _ Hcf) as Hwcf.
  pose proof (safe_df_well_formed _ Hfin) as Hwfin.
  unfold YahooFinanceDataProvider.build_snapshot.
  destruct (extract_latest_returns _
              ["Total Revenue"; "Operating Revenue"]%string Hwfin)
    as [revenue ->].
  destruct (extract_latest_returns _
              YahooFinanceDataProvider.net_income_labels Hwfin)
    as [net_income ->].
  destruct (extract_latest_returns _
              ["Operating Cash Flow";
               "Total Cash From Operating Activities"]%string Hwcf)
    as [operating ->].
  destruct (extract_latest_returns _
              YahooFinanceDataProvider.capex_labels Hwcf) as [capex ->].
  cbn [mbind result_bind bind mret result_ret].
  eexists. split; [reflexivity |].
  unfold valuation_service.ValuationService._select_base_cashflow.
  cbn [FinancialSnapshot.fcf_history].
  rewrite Hfcf. unfold YahooFinanceDataProvider._scale_series.
  destruct (Qeq_bool (Ticker.fx_rate yf_ticker) 1) eqn:Hone; cbn [orb].
  - apply Qeq_bool_iff in Hone. split; [reflexivity |]. rewrite Hone. ring.
  - rewrite bool_decide_eq_false_2 by discriminate.
    cbn [map length]. rewrite length_map. split; reflexivity.
Qed.

End CompositionExtras.

Section CompositionExamples.
Import Py valuation_models data_provider Spec Builtins Examples.
Import DiscountedCashFlowModel.

Lemma aggregate_buy_price_is_weighted_average_witness :
  exists agg ws,
    evaluate (__init__ (1 # 10) (3 # 10)) 10 100 1
      [base_scenario; bull_scenario] = Return agg /\
    probabilities [base_scenario; bull_scenario] = Return ws /\
    AggregateValuation.margin_of_safety_buy_price agg ==
    sum (map (fun vp => ScenarioValuation.buy_price vp.1 * vp.2)
             (zip (AggregateValuation.scenario_results agg) ws)).
Proof.
  apply (aggregate_buy_price_is_weighted_average (1 # 10) (3 # 10) 10 100 1
           [base_scenario; bull_scenario]).
  repeat constructor; vm_compute; (discriminate || reflexivity).
Defined.

Lemma dcf_base_is_latest_scaled_fcf_witness :
  exists snapshot,
    YahooFinanceDataProvider.build_snapshot "ACME" acme_upstream =
      Return snapshot /\
    valuation_service.ValuationService._select_base_cashflow snapshot false
      == (100 - -20) * 1.
Proof.
  destruct (dcf_base_is_latest_scaled_fcf "ACME" acme_upstream
              (100 - -20) [80 - 0])
    as (snapshot & Hs & _ & Hbase).
  - intros df [= <-]. repeat constructor.
  - intros df [=].
  - reflexivity.
  - exists snapshot. split; [exact Hs | exact Hbase].
Defined.

End CompositionExamples.

Section ResultOrderExtras.
Import Py valuation_models Projection Spec.
Import DiscountedCashFlowModel.
Context `{FloatFormat} `{FloatRange}.

(** X27.  When the model can value every scenario (at least one growth
    rate each, discount factors finite floats), the aggregate holds one
    result per scenario, in the order of the scenarios and under their
    names; it echoes the current price, and its metadata reports the
    discount rate and margin the model actually uses, that is, the clamped
    ones. *)
Theorem results_follow_scenarios (d mos base price shares : Q)
    (scenarios : list ScenarioProfile.t) :
  Forall (forecastable (__init__ d mos)) scenarios ->
  let self := __init__ d mos in
  exists agg,
    evaluate self base price shares scenarios = Return agg /\
    length (AggregateValuation.scenario_results agg) = length scenarios /\
    map ScenarioValuation.name (AggregateValuation.scenario_results agg) =
      map ScenarioProfile.name scenarios /\
    map ScenarioValuation.effective_growth_rates
        (AggregateValuation.scenario_results agg) =
      map ScenarioProfile.growth_rates scenarios /\
    AggregateValuation.current_price agg = price /\
    AggregateValuation.metadata agg !! "discount_rate"%string =
      Some (discount_rate self) /\
    AggregateValuation.metadata agg !! "margin_of_safety"%string =
      Some (margin_of_safety self).
Proof.
  intros Hall self.
  pose proof (init_discount_rate_nonneg d mos) as Hr. fold self in Hr.
  destruct (evaluate_returns self base price shares scenarios Hr Hall)
    as (ps & vs & _ & Hvs & Hev).
  eexists. split; [exact Hev |]. unfold assembled.
  cbn [AggregateValuation.scenario_results AggregateValuation.current_price
       AggregateValuation.metadata].
  split; [symmetry; exact (Forall2_length _ _ _ Hvs) |].
  assert (Hecho :
    map ScenarioValuation.name vs = map ScenarioProfile.name scenarios /\
    map ScenarioValuation.effective_growth_rates vs =
      map ScenarioProfile.growth_rates scenarios).
  { clear Hev. induction Hvs as [| s v ss vs Hv _ IH].
    - split; reflexivity.
    - inversion Hall as [| ? ? Hs Hrest]; subst.
      destruct (IH Hrest) as [IHn IHg].
      rewrite (evaluate_scenario_explicit self ps price s Hr Hs) in Hv.
      injection Hv as <-. cbn [map ScenarioValuation.name
                               ScenarioValuation.effective_growth_rates].
      now rewrite IHn, IHg. }
  destruct Hecho as [Hnames Hrates].
  split; [exact Hnames |]. split; [exact Hrates |].
  split; [reflexivity |]. split.
  - apply lookup_insert_eq.
  - rewrite lookup_insert_ne by discriminate. apply lookup_insert_eq.
Qed.

End ResultOrderExtras.

Section ResultOrderExamples.
Import Py valuation_models Spec Builtins Examples.
Import DiscountedCashFlowModel.

Lemma results_follow_scenarios_witness :
  exists agg,
    evaluate (__init__ (1 # 10) (3 # 10)) 10 100 1
      [base_scenario; bull_scenario] = Return agg /\
    map ScenarioValuation.name (AggregateValuation.scenario_results agg) =
      ["Base"; "Bull"]%string.
Proof.
  destruct (results_follow_scenarios (1 # 10) (3 # 10) 10 100 1
              [base_scenario; bull_scenario])
    as (agg & Hagg & _ & Hnames & _).
  - repeat constructor; vm_compute; (discriminate || reflexivity).
  - exists agg. split; [exact Hagg | exact Hnames].
Defined.

End ResultOrderExamples.
